(** * The YARA [hash] module (libyara/modules/hash.c)

    A shallow embedding of the eight functions the module exports
    (md5, sha1, sha256 and checksum32, each over a string and over a range
    of the scanned data), of the per-scan cache they share and of the
    module life-cycle hooks, followed by the properties of the range walk
    and of the cache. *)

From Stdlib Require Import ZArith List String Ascii Lia Bool Permutation.
From Stdlib.Strings Require Import Byte.
Import ListNotations.
Local Open Scope Z_scope.

(** ** Machine integers

    C integers are carried as [Z]; every conversion the C code performs is
    written out as the reduction it stands for. *)

Definition to_size_t (x : Z) : Z := x mod 2 ^ 64.
Definition to_int64 (x : Z) : Z := (x + 2 ^ 63) mod 2 ^ 64 - 2 ^ 63.
Definition to_uint32 (x : Z) : Z := x mod 2 ^ 32.
Definition INT64_MAX : Z := 2 ^ 63 - 1.

(** [(uint8_t) c]: the value of one byte, between 0 and 255. *)
Definition to_uint8 (b : byte) : Z := Z.of_N (Byte.to_N b).

(** Modelled from the spec: the macro [yr_min] (yara/utils.h) is not under
    src/; the spec reads it as the minimum of its two arguments. *)
Definition yr_min (x y : Z) : Z := if x <? y then x else y.

(** Modelled from the spec: the constant [UNDEFINED] (yara/types.h) is not
    under src/; the spec asks for a sentinel distinct from every digest and
    from every 32-bit sum.  The value is the one libyara uses,
    0xFFFABADAFABADAFF read as an int64_t. *)
Definition UNDEFINED : Z := 0xFFFABADAFABADAFF - 2 ^ 64.

(** ** Data model *)

(** Modelled from the spec: the declaration of [YR_MEMORY_BLOCK]
    (yara/types.h) is not under src/; the spec gives a segment a base and a
    size, both int64, and a buffer of [size] bytes.  Were the two fields
    unsigned, the comparisons of the loop would be unsigned ones, which
    agree with the signed ones on the non-negative values the properties
    below are stated for. *)
Record YR_MEMORY_BLOCK : Type := {
  data : list byte;
  size : Z;
  base : Z
}.

(** [context->mem_block] heads the linked list of blocks that
    [foreach_memory_block] follows; the empty list is the NULL pointer. *)
Record YR_SCAN_CONTEXT : Type := {
  mem_block : list YR_MEMORY_BLOCK
}.

(** Address of a [char] array.  The only arrays whose address the module
    keeps are the [digest_ascii] locals of its own functions, so an address
    names one activation's array. *)
Definition char_ptr : Type := Z.

Record CACHED_HASH : Type := {
  hash_isSet : bool;
  hash_offset : Z;
  hash_length : Z;
  digest : char_ptr
}.

Record CACHED_CHECKSUM : Type := {
  sum_isSet : bool;
  sum_offset : Z;
  sum_length : Z;
  sum : Z
}.

Record CACHE : Type := {
  md5 : CACHED_HASH;
  sha1 : CACHED_HASH;
  sha256 : CACHED_HASH;
  crc32 : CACHED_CHECKSUM
}.

Definition set_md5 (c : CACHE) (e : CACHED_HASH) : CACHE :=
  {| md5 := e; sha1 := sha1 c; sha256 := sha256 c; crc32 := crc32 c |}.
Definition set_sha1 (c : CACHE) (e : CACHED_HASH) : CACHE :=
  {| md5 := md5 c; sha1 := e; sha256 := sha256 c; crc32 := crc32 c |}.
Definition set_sha256 (c : CACHE) (e : CACHED_HASH) : CACHE :=
  {| md5 := md5 c; sha1 := sha1 c; sha256 := e; crc32 := crc32 c |}.
Definition set_crc32 (c : CACHE) (e : CACHED_CHECKSUM) : CACHE :=
  {| md5 := md5 c; sha1 := sha1 c; sha256 := sha256 c; crc32 := e |}.

(** ** What a module function hands back *)

(** The return object of a function: a string (NULL when the result is
    undefined) or an integer (the constant [UNDEFINED] when it is). *)
Inductive YR_VALUE : Type :=
| string_value (s : option string)
| integer_value (i : Z).

Definition is_undefined (v : YR_VALUE) : bool :=
  match v with
  | string_value None => true
  | string_value (Some _) => false
  | integer_value i => i =? UNDEFINED
  end.

Inductive error_code : Type :=
| ERROR_SUCCESS
| ERROR_WRONG_ARGUMENTS.

(** Behaviour the C standard leaves undefined. *)
Inductive fault : Type :=
| null_mem_block                      (* context->mem_block->base through NULL *)
| dead_array_read (p : char_ptr).     (* a string read where no live,
                                         initialised array stands *)

Inductive outcome : Type :=
| Done (v : YR_VALUE)                 (* return object set, ERROR_SUCCESS *)
| Error (e : error_code)              (* return e, no return object *)
| Fault (f : fault).

(** Modelled from the spec: the macros [return_string] and
    [return_integer] (yara/modules.h) are not under src/; they store the
    value in the return object and leave the function with success,
    [UNDEFINED] standing for the undefined result of either type. *)
Definition return_string (s : string) : outcome := Done (string_value (Some s)).
Definition return_string_UNDEFINED : outcome := Done (string_value None).
Definition return_integer (i : Z) : outcome := Done (integer_value i).

(** [return_string(p)] copies the string found at [p].  While a function
    runs, the one array of the module that is alive is its own
    [digest_ascii] at [fp], holding [live] once it has been written. *)
Definition return_string_at (fp : char_ptr) (live : option string)
    (p : char_ptr) : outcome :=
  match (if p =? fp then live else None) with
  | Some s => return_string s
  | None => Fault (dead_array_read p)
  end.

(** ** The loop over the blocks *)

Inductive flow (S R : Type) : Type :=
| Continue (s : S)
| Break (s : S)
| Return (r : R).
Arguments Continue {S R} s.
Arguments Break {S R} s.
Arguments Return {S R} r.

(** Modelled from the spec: the macro [foreach_memory_block]
    (yara/modules.h) is not under src/; it visits the blocks in list
    order.  The body may go on, [break], or leave the function. *)
Fixpoint foreach_memory_block {S R : Type} (blocks : list YR_MEMORY_BLOCK)
    (body : YR_MEMORY_BLOCK -> S -> flow S R) (s : S) : S + R :=
  match blocks with
  | [] => inl s
  | block :: next =>
      match body block s with
      | Continue s' => foreach_memory_block next body s'
      | Break s' => inl s'
      | Return r => inr r
      end
  end.

(** The locals a loop body changes: the running [offset] and [length], the
    digest context (or the running sum) and [past_first_block]. *)
Record locals (C : Type) : Type := {
  l_offset : Z;
  l_length : Z;
  l_context : C;
  l_past_first_block : bool
}.
Arguments l_offset {C} _.
Arguments l_length {C} _.
Arguments l_context {C} _.
Arguments l_past_first_block {C} _.

(** [block->data + data_offset], [data_len] bytes of it. *)
Definition block_bytes (block : YR_MEMORY_BLOCK) (data_offset data_len : Z)
    : list byte :=
  firstn (Z.to_nat data_len) (skipn (Z.to_nat data_offset) (data block)).

(** ** Hexadecimal text *)

Definition hex_digits : string := "0123456789abcdef".

Definition hex_digit (n : N) : ascii :=
  match String.get (N.to_nat n) hex_digits with
  | Some c => c
  | None => "0"%char
  end.

(** [sprintf(.., "%02x", b)] *)
Definition sprintf_02x (b : byte) : list ascii :=
  [hex_digit (N.div (Byte.to_N b) 16); hex_digit (N.modulo (Byte.to_N b) 16)].

Definition digest_to_ascii (digest : list byte) (digest_length : nat) : string :=
  string_of_list_ascii (flat_map sprintf_02x (firstn digest_length digest)).

(** ** The digest engines *)

(** OpenSSL's MD5, SHA-1 and SHA-256 are taken as given: a function from
    the message to a digest of the engine's length.  A context is the
    message fed so far. *)
Record HASH (n : nat) : Type := {
  digest_of : list byte -> list byte;
  digest_of_length : forall m, List.length (digest_of m) = n
}.
Arguments digest_of {n} _ _.
Arguments digest_of_length {n} _ _.

Definition MD5_DIGEST_LENGTH : nat := 16.
Definition SHA_DIGEST_LENGTH : nat := 20.
Definition SHA256_DIGEST_LENGTH : nat := 32.

(** ** The module functions *)

Section Functions.

Variable MD5 : HASH MD5_DIGEST_LENGTH.
Variable SHA1 : HASH SHA_DIGEST_LENGTH.
Variable SHA256 : HASH SHA256_DIGEST_LENGTH.

Definition MD5_CTX : Type := list byte.
Definition MD5_Init : MD5_CTX := [].
Definition MD5_Update (c : MD5_CTX) (d : list byte) : MD5_CTX := c ++ d.
Definition MD5_Final (c : MD5_CTX) : list byte := digest_of MD5 c.

Definition SHA_CTX : Type := list byte.
Definition SHA1_Init : SHA_CTX := [].
Definition SHA1_Update (c : SHA_CTX) (d : list byte) : SHA_CTX := c ++ d.
Definition SHA1_Final (c : SHA_CTX) : list byte := digest_of SHA1 c.

Definition SHA256_CTX : Type := list byte.
Definition SHA256_Init : SHA256_CTX := [].
Definition SHA256_Update (c : SHA256_CTX) (d : list byte) : SHA256_CTX := c ++ d.
Definition SHA256_Final (c : SHA256_CTX) : list byte := digest_of SHA256 c.

(** *** Literal-string forms

    Each takes the sized string [s] (its [length] bytes, NULs included) and,
    like every module function, can reach the scan context and the module
    data; the state it leaves is returned next to its outcome. *)

Definition string_md5 (context : YR_SCAN_CONTEXT) (cache : CACHE)
    (s : list byte) : outcome * CACHE :=
  let md5_context := MD5_Init in
  let md5_context := MD5_Update md5_context s in
  let digest := MD5_Final md5_context in
  let digest_ascii := digest_to_ascii digest MD5_DIGEST_LENGTH in
  (return_string digest_ascii, cache).

Definition string_sha256 (context : YR_SCAN_CONTEXT) (cache : CACHE)
    (s : list byte) : outcome * CACHE :=
  let sha256_context := SHA256_Init in
  let sha256_context := SHA256_Update sha256_context s in
  let digest := SHA256_Final sha256_context in
  let digest_ascii := digest_to_ascii digest SHA256_DIGEST_LENGTH in
  (return_string digest_ascii, cache).

Definition string_sha1 (context : YR_SCAN_CONTEXT) (cache : CACHE)
    (s : list byte) : outcome * CACHE :=
  let sha_context := SHA1_Init in
  let sha_context := SHA1_Update sha_context s in
  let digest := SHA1_Final sha_context in
  let digest_ascii := digest_to_ascii digest SHA_DIGEST_LENGTH in
  (return_string digest_ascii, cache).

(** [checksum += (uint8_t) c] on a [uint32_t]. *)
Definition checksum_add (checksum : Z) (c : byte) : Z :=
  to_uint32 (checksum + to_uint8 c).

Definition string_checksum32 (context : YR_SCAN_CONTEXT) (cache : CACHE)
    (s : list byte) : outcome * CACHE :=
  let checksum := fold_left checksum_add s 0 in
  (return_integer checksum, cache).

(** *** Data-range forms: the loop bodies

    One body per function.  The operand [block->size - data_offset] of
    [yr_min] is cast in three different ways in the source; with a
    [size_t] on one side the subtraction is unsigned in all of them, so
    every variant is the same reduction. *)

Definition data_md5_body (block : YR_MEMORY_BLOCK) (s : locals MD5_CTX)
    : flow (locals MD5_CTX) outcome :=
  let offset := l_offset s in
  let length := l_length s in
  let step :=
    if (offset >=? base block) &&
       (offset <? to_int64 (base block + size block))
    then
      let data_offset := to_size_t (offset - base block) in
      let data_len := to_size_t (yr_min (to_size_t length)
                        (to_size_t (to_size_t (size block) - data_offset))) in
      Some {| l_offset := to_int64 (to_size_t offset + data_len);
              l_length := to_int64 (to_size_t length - data_len);
              l_context := MD5_Update (l_context s)
                             (block_bytes block data_offset data_len);
              l_past_first_block := true |}
    else if l_past_first_block s then None
    else Some s in
  match step with
  | None => Return return_string_UNDEFINED
  | Some s' =>
      if to_int64 (base block + size block) >?
         to_int64 (l_offset s' + l_length s')
      then Break s' else Continue s'
  end.

Definition data_sha1_body (block : YR_MEMORY_BLOCK) (s : locals SHA_CTX)
    : flow (locals SHA_CTX) outcome :=
  let offset := l_offset s in
  let length := l_length s in
  let step :=
    if (offset >=? base block) &&
       (offset <? to_int64 (base block + size block))
    then
      let data_offset := to_size_t (offset - base block) in
      let data_len := to_size_t (yr_min (to_size_t length)
                        (to_size_t (to_size_t (size block) - data_offset))) in
      Some {| l_offset := to_int64 (to_size_t offset + data_len);
              l_length := to_int64 (to_size_t length - data_len);
              l_context := SHA1_Update (l_context s)
                             (block_bytes block data_offset data_len);
              l_past_first_block := true |}
    else if l_past_first_block s then None
    else Some s in
  match step with
  | None => Return return_string_UNDEFINED
  | Some s' =>
      if to_int64 (base block + size block) >?
         to_int64 (l_offset s' + l_length s')
      then Break s' else Continue s'
  end.

Definition data_sha256_body (block : YR_MEMORY_BLOCK) (s : locals SHA256_CTX)
    : flow (locals SHA256_CTX) outcome :=
  let offset := l_offset s in
  let length := l_length s in
  let step :=
    if (offset >=? base block) &&
       (offset <? to_int64 (base block + size block))
    then
      let data_offset := to_size_t (offset - base block) in
      let data_len := to_size_t (yr_min (to_size_t length)
                        (to_size_t (to_size_t (size block) - data_offset))) in
      Some {| l_offset := to_int64 (to_size_t offset + data_len);
              l_length := to_int64 (to_size_t length - data_len);
              l_context := SHA256_Update (l_context s)
                             (block_bytes block data_offset data_len);
              l_past_first_block := true |}
    else if l_past_first_block s then None
    else Some s in
  match step with
  | None => Return return_string_UNDEFINED
  | Some s' =>
      if to_int64 (base block + size block) >?
         to_int64 (l_offset s' + l_length s')
      then Break s' else Continue s'
  end.

(** The inner [for] of [data_checksum32] adds the [data_len] bytes one by
    one to the [uint32_t] sum. *)
Definition data_checksum32_body (block : YR_MEMORY_BLOCK) (s : locals Z)
    : flow (locals Z) outcome :=
  let offset := l_offset s in
  let length := l_length s in
  let step :=
    if (offset >=? base block) &&
       (offset <? to_int64 (base block + size block))
    then
      let data_offset := to_size_t (offset - base block) in
      let data_len := to_size_t (yr_min (to_size_t length)
                        (to_size_t (to_size_t (size block) - data_offset))) in
      Some {| l_offset := to_int64 (to_size_t offset + data_len);
              l_length := to_int64 (to_size_t length - data_len);
              l_context := fold_left checksum_add
                             (block_bytes block data_offset data_len)
                             (l_context s);
              l_past_first_block := true |}
    else if l_past_first_block s then None
    else Some s in
  match step with
  | None => Return (return_integer UNDEFINED)
  | Some s' =>
      if to_int64 (base block + size block) >?
         to_int64 (l_offset s' + l_length s')
      then Break s' else Continue s'
  end.

(** *** Data-range forms

    [fp] is the address of the activation's [digest_ascii]; [cache] is
    [module->data]. *)

Definition data_md5 (fp : char_ptr) (context : YR_SCAN_CONTEXT) (cache : CACHE)
    (offset length : Z) : outcome * CACHE :=
  let cached_md5 := md5 cache in
  let md5_context := MD5_Init in
  if (offset <? 0) || (length <? 0) then (Error ERROR_WRONG_ARGUMENTS, cache)
  else
    match mem_block context with
    | [] => (Fault null_mem_block, cache)
    | first :: _ =>
        if offset <? base first then (Error ERROR_WRONG_ARGUMENTS, cache)
        else if hash_isSet cached_md5 && (hash_offset cached_md5 =? offset)
                && (hash_length cached_md5 =? length)
        then (return_string_at fp None (digest cached_md5), cache)
        else
          let cached_md5 :=
            {| hash_isSet := hash_isSet cached_md5; hash_offset := offset;
               hash_length := length; digest := digest cached_md5 |} in
          let cache := set_md5 cache cached_md5 in
          match foreach_memory_block (mem_block context) data_md5_body
                  {| l_offset := offset; l_length := length;
                     l_context := md5_context;
                     l_past_first_block := false |} with
          | inr r => (r, cache)
          | inl s =>
              if negb (l_past_first_block s)
              then (return_string_UNDEFINED, cache)
              else
                let digest_bytes := MD5_Final (l_context s) in
                let digest_ascii :=
                  digest_to_ascii digest_bytes MD5_DIGEST_LENGTH in
                let cached_md5 :=
                  {| hash_isSet := true; hash_offset := hash_offset cached_md5;
                     hash_length := hash_length cached_md5; digest := fp |} in
                (return_string_at fp (Some digest_ascii) fp,
                 set_md5 cache cached_md5)
          end
    end.

Definition data_sha1 (fp : char_ptr) (context : YR_SCAN_CONTEXT) (cache : CACHE)
    (offset length : Z) : outcome * CACHE :=
  let cached_sha1 := sha1 cache in
  let sha_context := SHA1_Init in
  if (offset <? 0) || (length <? 0) then (Error ERROR_WRONG_ARGUMENTS, cache)
  else
    match mem_block context with
    | [] => (Fault null_mem_block, cache)
    | first :: _ =>
        if offset <? base first then (Error ERROR_WRONG_ARGUMENTS, cache)
        else if hash_isSet cached_sha1 && (hash_offset cached_sha1 =? offset)
                && (hash_length cached_sha1 =? length)
        then (return_string_at fp None (digest cached_sha1), cache)
        else
          let cached_sha1 :=
            {| hash_isSet := hash_isSet cached_sha1; hash_offset := offset;
               hash_length := length; digest := digest cached_sha1 |} in
          let cache := set_sha1 cache cached_sha1 in
          match foreach_memory_block (mem_block context) data_sha1_body
                  {| l_offset := offset; l_length := length;
                     l_context := sha_context;
                     l_past_first_block := false |} with
          | inr r => (r, cache)
          | inl s =>
              if negb (l_past_first_block s)
              then (return_string_UNDEFINED, cache)
              else
                let digest_bytes := SHA1_Final (l_context s) in
                let digest_ascii :=
                  digest_to_ascii digest_bytes SHA_DIGEST_LENGTH in
                let cached_sha1 :=
                  {| hash_isSet := true; hash_offset := hash_offset cached_sha1;
                     hash_length := hash_length cached_sha1; digest := fp |} in
                (return_string_at fp (Some digest_ascii) fp,
                 set_sha1 cache cached_sha1)
          end
    end.

Definition data_sha256 (fp : char_ptr) (context : YR_SCAN_CONTEXT)
    (cache : CACHE) (offset length : Z) : outcome * CACHE :=
  let cached_sha256 := sha256 cache in
  let sha256_context := SHA256_Init in
  if (offset <? 0) || (length <? 0) then (Error ERROR_WRONG_ARGUMENTS, cache)
  else
    match mem_block context with
    | [] => (Fault null_mem_block, cache)
    | first :: _ =>
        if offset <? base first then (Error ERROR_WRONG_ARGUMENTS, cache)
        else if hash_isSet cached_sha256 && (hash_offset cached_sha256 =? offset)
                && (hash_length cached_sha256 =? length)
        then (return_string_at fp None (digest cached_sha256), cache)
        else
          let cached_sha256 :=
            {| hash_isSet := hash_isSet cached_sha256; hash_offset := offset;
               hash_length := length; digest := digest cached_sha256 |} in
          let cache := set_sha256 cache cached_sha256 in
          match foreach_memory_block (mem_block context) data_sha256_body
                  {| l_offset := offset; l_length := length;
                     l_context := sha256_context;
                     l_past_first_block := false |} with
          | inr r => (r, cache)
          | inl s =>
              if negb (l_past_first_block s)
              then (return_string_UNDEFINED, cache)
              else
                let digest_bytes := SHA256_Final (l_context s) in
                let digest_ascii :=
                  digest_to_ascii digest_bytes SHA256_DIGEST_LENGTH in
                let cached_sha256 :=
                  {| hash_isSet := true;
                     hash_offset := hash_offset cached_sha256;
                     hash_length := hash_length cached_sha256; digest := fp |} in
                (return_string_at fp (Some digest_ascii) fp,
                 set_sha256 cache cached_sha256)
          end
    end.

Definition data_checksum32 (context : YR_SCAN_CONTEXT) (cache : CACHE)
    (offset length : Z) : outcome * CACHE :=
  let cached_crc32 := crc32 cache in
  let checksum := 0 in
  if (offset <? 0) || (length <? 0) then (Error ERROR_WRONG_ARGUMENTS, cache)
  else
    match mem_block context with
    | [] => (Fault null_mem_block, cache)
    | first :: _ =>
        if offset <? base first then (Error ERROR_WRONG_ARGUMENTS, cache)
        else if sum_isSet cached_crc32 && (sum_offset cached_crc32 =? offset)
                && (sum_length cached_crc32 =? length)
        then (return_integer (sum cached_crc32), cache)
        else
          let cached_crc32 :=
            {| sum_isSet := sum_isSet cached_crc32; sum_offset := offset;
               sum_length := length; sum := sum cached_crc32 |} in
          let cache := set_crc32 cache cached_crc32 in
          match foreach_memory_block (mem_block context) data_checksum32_body
                  {| l_offset := offset; l_length := length;
                     l_context := checksum;
                     l_past_first_block := false |} with
          | inr r => (r, cache)
          | inl s =>
              if negb (l_past_first_block s)
              then (return_integer UNDEFINED, cache)
              else
                let checksum := l_context s in
                let cached_crc32 :=
                  {| sum_isSet := true; sum_offset := sum_offset cached_crc32;
                     sum_length := sum_length cached_crc32;
                     sum := checksum |} in
                (return_integer checksum, set_crc32 cache cached_crc32)
          end
    end.

End Functions.

(** *** Module life cycle *)

Definition module_initialize : error_code := ERROR_SUCCESS.

Definition module_finalize : error_code := ERROR_SUCCESS.

(** Modelled from the spec: [yr_malloc] (yara/mem.h) is not under src/; the
    spec has it allocate the cache and nothing more, so the block comes
    with whatever bytes [heap] held there, and [module_load] stores none
    of its own. *)
Definition yr_malloc (heap : CACHE) : CACHE := heap.

Definition module_load (heap : CACHE) : error_code * CACHE :=
  let module_object_data := yr_malloc heap in
  (ERROR_SUCCESS, module_object_data).

Definition module_unload (module_object_data : CACHE) : error_code :=
  ERROR_SUCCESS.

(** * Notions the properties are stated with *)

(** ** One body for the four loops *)

Section Range_body.

Context {C : Type}.
Variable update : C -> list byte -> C.
Variable undefined_result : outcome.

Definition range_body (block : YR_MEMORY_BLOCK) (s : locals C)
    : flow (locals C) outcome :=
  let offset := l_offset s in
  let length := l_length s in
  let step :=
    if (offset >=? base block) &&
       (offset <? to_int64 (base block + size block))
    then
      let data_offset := to_size_t (offset - base block) in
      let data_len := to_size_t (yr_min (to_size_t length)
                        (to_size_t (to_size_t (size block) - data_offset))) in
      Some {| l_offset := to_int64 (to_size_t offset + data_len);
              l_length := to_int64 (to_size_t length - data_len);
              l_context := update (l_context s)
                             (block_bytes block data_offset data_len);
              l_past_first_block := true |}
    else if l_past_first_block s then None
    else Some s in
  match step with
  | None => Return undefined_result
  | Some s' =>
      if to_int64 (base block + size block) >?
         to_int64 (l_offset s' + l_length s')
      then Break s' else Continue s'
  end.

End Range_body.

(** The inner loop of [data_checksum32] as an update of the running sum. *)
Definition checksum_update (checksum : Z) (d : list byte) : Z :=
  fold_left checksum_add d checksum.

(** ** Segments as the data model has them *)

Definition block_end (b : YR_MEMORY_BLOCK) : Z := base b + size b.

Definition contains (b : YR_MEMORY_BLOCK) (a : Z) : bool :=
  (base b <=? a) && (a <? block_end b).

Definition covered (blocks : list YR_MEMORY_BLOCK) (a : Z) : bool :=
  existsb (fun b => contains b a) blocks.

(** Ascending bases, no overlap, buffers as long as their size, and every
    address an int64. *)
Fixpoint ascending_from (lo : Z) (blocks : list YR_MEMORY_BLOCK) : bool :=
  match blocks with
  | [] => true
  | b :: next =>
      (lo <=? base b) && (0 <=? size b) &&
      (Z.of_nat (List.length (data b)) =? size b) &&
      (block_end b <=? INT64_MAX) && ascending_from (block_end b) next
  end.

Definition well_formed (blocks : list YR_MEMORY_BLOCK) : bool :=
  ascending_from 0 blocks.

(** End addresses after which the data stops although a further block
    follows: the next block does not hold the byte at that address. *)
Fixpoint gaps_after (e : Z) (blocks : list YR_MEMORY_BLOCK) : list Z :=
  match blocks with
  | [] => []
  | b :: next =>
      (if contains b e then [] else [e]) ++ gaps_after (block_end b) next
  end.

Definition gaps (blocks : list YR_MEMORY_BLOCK) : list Z :=
  match blocks with
  | [] => []
  | b :: next => gaps_after (block_end b) next
  end.

(** A gap strictly inside the requested range. *)
Definition crosses_gap (blocks : list YR_MEMORY_BLOCK) (offset length : Z)
    : bool :=
  existsb (fun e => (offset <? e) && (e <? offset + length)) (gaps blocks).

(** A gap inside the range or right at its end. *)
Definition reaches_gap (blocks : list YR_MEMORY_BLOCK) (offset length : Z)
    : bool :=
  existsb (fun e => (offset <? e) && (e <=? offset + length)) (gaps blocks).

(** The bytes of [b] at the addresses from [lo] up to [hi]. *)
Definition block_range (b : YR_MEMORY_BLOCK) (lo hi : Z) : list byte :=
  block_bytes b (Z.max lo (base b) - base b)
                (Z.min hi (block_end b) - Z.max lo (base b)).

(** The bytes the blocks hold at the addresses of a request, in order. *)
Definition range_bytes (blocks : list YR_MEMORY_BLOCK) (offset length : Z)
    : list byte :=
  flat_map (fun b => block_range b offset (offset + length)) blocks.

(** Every address of the request lies in some block. *)
Definition fully_covered (blocks : list YR_MEMORY_BLOCK) (offset length : Z)
    : Prop :=
  forall a, offset <= a < offset + length -> covered blocks a = true.

Definition hash_hit (e : CACHED_HASH) (offset length : Z) : bool :=
  hash_isSet e && (hash_offset e =? offset) && (hash_length e =? length).

Definition sum_hit (e : CACHED_CHECKSUM) (offset length : Z) : bool :=
  sum_isSet e && (sum_offset e =? offset) && (sum_length e =? length).

Definition byte_sum (l : list byte) : Z :=
  fold_right (fun b acc => to_uint8 b + acc) 0 l.

(** ** The walk and what it resolves *)

Definition walk {C : Type} (update : C -> list byte -> C) (u : outcome)
    (blocks : list YR_MEMORY_BLOCK) (s : locals C) : locals C + outcome :=
  foreach_memory_block blocks (range_body update u) s.

Definition start {C : Type} (offset length : Z) (c : C) : locals C :=
  {| l_offset := offset; l_length := length; l_context := c;
     l_past_first_block := false |}.

(** What the code after the loop makes of it: a context to finalise, or
    nothing when the result is undefined. *)
Definition walk_value {C : Type} (r : locals C + outcome) : option C :=
  match r with
  | inr _ => None
  | inl s => if l_past_first_block s then Some (l_context s) else None
  end.

(** The bytes a request resolves to over ascending blocks: those the
    blocks hold in the range, provided the first one is there and no gap
    lies in the range or at its end. *)
Definition resolve (blocks : list YR_MEMORY_BLOCK) (offset length : Z)
    : option (list byte) :=
  if covered blocks offset && negb (reaches_gap blocks offset length)
  then Some (range_bytes blocks offset length)
  else None.

(** The spans the walk of the source feeds to its engine, concatenated. *)
Definition resolve_range (blocks : list YR_MEMORY_BLOCK) (offset length : Z)
    : option (list byte) :=
  walk_value (walk (@app byte) return_string_UNDEFINED blocks
                (start offset length [])).

(** Arguments the functions accept. *)
Definition valid_arguments (blocks : list YR_MEMORY_BLOCK) (offset length : Z)
    : bool :=
  (0 <=? offset) && (0 <=? length) &&
  match blocks with
  | [] => false
  | first :: _ => base first <=? offset
  end.

(** ** One step of the walk, without the conversions *)

Definition in_range_block (b : YR_MEMORY_BLOCK) : Prop :=
  0 <= base b /\ 0 <= size b /\ block_end b <= INT64_MAX.

Definition in_range_locals {C : Type} (s : locals C) : Prop :=
  0 <= l_offset s /\ 0 <= l_length s /\ l_offset s + l_length s <= INT64_MAX.

Definition consume {C : Type} (update : C -> list byte -> C)
    (b : YR_MEMORY_BLOCK) (s : locals C) : locals C :=
  let d := Z.min (l_length s) (block_end b - l_offset s) in
  {| l_offset := l_offset s + d;
     l_length := l_length s - d;
     l_context := update (l_context s) (block_bytes b (l_offset s - base b) d);
     l_past_first_block := true |}.

(** ** Cache entries the functions leave *)

(** The entry after the two assignments that follow a miss. *)
Definition touch_hash (e : CACHED_HASH) (offset length : Z) : CACHED_HASH :=
  {| hash_isSet := hash_isSet e; hash_offset := offset;
     hash_length := length; digest := digest e |}.

(** The entry after a digest has been computed. *)
Definition store_hash (fp : char_ptr) (offset length : Z) : CACHED_HASH :=
  {| hash_isSet := true; hash_offset := offset; hash_length := length;
     digest := fp |}.

Definition touch_sum (e : CACHED_CHECKSUM) (offset length : Z)
    : CACHED_CHECKSUM :=
  {| sum_isSet := sum_isSet e; sum_offset := offset; sum_length := length;
     sum := sum e |}.

Definition store_sum (offset length checksum : Z) : CACHED_CHECKSUM :=
  {| sum_isSet := true; sum_offset := offset; sum_length := length;
     sum := checksum |}.

Definition map_locals {C D : Type} (h : C -> D) (s : locals C) : locals D :=
  {| l_offset := l_offset s; l_length := l_length s;
     l_context := h (l_context s);
     l_past_first_block := l_past_first_block s |}.

(** ** The four results side by side *)

(** No entry of the cache answers the request. *)
Definition cold (cache : CACHE) (offset length : Z) : bool :=
  negb (hash_hit (md5 cache) offset length) &&
  negb (hash_hit (sha1 cache) offset length) &&
  negb (hash_hit (sha256 cache) offset length) &&
  negb (sum_hit (crc32 cache) offset length).

Definition data_results (MD5 : HASH MD5_DIGEST_LENGTH)
    (SHA1 : HASH SHA_DIGEST_LENGTH) (SHA256 : HASH SHA256_DIGEST_LENGTH)
    (fp : char_ptr) (context : YR_SCAN_CONTEXT) (cache : CACHE)
    (offset length : Z) : list outcome :=
  [fst (data_md5 MD5 fp context cache offset length);
   fst (data_sha1 SHA1 fp context cache offset length);
   fst (data_sha256 SHA256 fp context cache offset length);
   fst (data_checksum32 context cache offset length)].

Definition string_results (MD5 : HASH MD5_DIGEST_LENGTH)
    (SHA1 : HASH SHA_DIGEST_LENGTH) (SHA256 : HASH SHA256_DIGEST_LENGTH)
    (context : YR_SCAN_CONTEXT) (cache : CACHE) (s : list byte)
    : list outcome :=
  [fst (string_md5 MD5 context cache s);
   fst (string_sha1 SHA1 context cache s);
   fst (string_sha256 SHA256 context cache s);
   fst (string_checksum32 context cache s)].

Definition undefined_results : list outcome :=
  [return_string_UNDEFINED; return_string_UNDEFINED; return_string_UNDEFINED;
   return_integer UNDEFINED].

Definition defined (r : outcome) : bool :=
  match r with
  | Done v => negb (is_undefined v)
  | _ => false
  end.

Definition lowercase_hex (s : string) : Prop :=
  Forall (fun c => In c (list_ascii_of_string hex_digits))
         (list_ascii_of_string s).

(** ** Sample data *)

(** An engine to run the functions with: the message cut or padded with
    zero bytes to the digest length. *)
Definition pad (n : nat) (m : list byte) : list byte :=
  firstn n (m ++ repeat "000"%byte n).

Definition pad_length (n : nat) (m : list byte) : List.length (pad n m) = n.
Proof.
  unfold pad. rewrite length_firstn, length_app, repeat_length. lia.
Defined.

Definition pad_hash (n : nat) : HASH n :=
  {| digest_of := pad n; digest_of_length := pad_length n |}.

Definition block_of (s : string) (at_base : Z) : YR_MEMORY_BLOCK :=
  {| data := list_byte_of_string s;
     size := Z.of_nat (String.length s);
     base := at_base |}.

Definition one_block : YR_SCAN_CONTEXT :=
  {| mem_block := [block_of "abcd" 0] |}.


Definition adjacent_blocks : YR_SCAN_CONTEXT :=
  {| mem_block := [block_of "abcd" 0; block_of "efgh" 4] |}.

Definition distant_blocks : YR_SCAN_CONTEXT :=
  {| mem_block := [block_of "abcd" 0; block_of "efgh" 10] |}.

Definition empty_hash : CACHED_HASH :=
  {| hash_isSet := false; hash_offset := 0; hash_length := 0; digest := 0 |}.

Definition empty_sum : CACHED_CHECKSUM :=
  {| sum_isSet := false; sum_offset := 0; sum_length := 0; sum := 0 |}.

Definition empty_cache : CACHE :=
  {| md5 := empty_hash; sha1 := empty_hash; sha256 := empty_hash;
     crc32 := empty_sum |}.

(** A heap block that held other data before [yr_malloc] handed it out. *)
Definition used_heap : CACHE :=
  {| md5 := empty_hash; sha1 := empty_hash; sha256 := empty_hash;
     crc32 := {| sum_isSet := true; sum_offset := 0; sum_length := 4;
                 sum := 12345 |} |}.

(** ** Reading hexadecimal text back *)

(** The place of a character among [hex_digits]; 0 for any other. *)
Definition hex_value (c : ascii) : N :=
  match index 0 (String c EmptyString) hex_digits with
  | Some i => N.of_nat i
  | None => 0%N
  end.

Definition byte_of_N (n : N) : byte :=
  match Byte.of_N n with
  | Some b => b
  | None => "000"%byte
  end.

(** Two characters a byte, as long as two are left. *)
Fixpoint hex_decode (s : string) : list byte :=
  match s with
  | String hi (String lo rest) =>
      byte_of_N (16 * hex_value hi + hex_value lo) :: hex_decode rest
  | _ => []
  end.

(** ** Blocks cut in two, blocks moved *)

(** [b1] followed by [b2] as one block. *)
Definition merge_blocks (b1 b2 : YR_MEMORY_BLOCK) : YR_MEMORY_BLOCK :=
  {| data := data b1 ++ data b2; size := size b1 + size b2; base := base b1 |}.

Definition shift_block (d : Z) (b : YR_MEMORY_BLOCK) : YR_MEMORY_BLOCK :=
  {| data := data b; size := size b; base := base b + d |}.

(** Every address of every block is a non-negative int64; the blocks may
    come in any order. *)
Definition addresses_int64 (blocks : list YR_MEMORY_BLOCK) : bool :=
  forallb (fun b => (0 <=? base b) && (0 <=? size b) &&
                    (block_end b <=? INT64_MAX)) blocks.

(** The entries that are set in [c] are set in [c']. *)
Definition set_entries_kept (c c' : CACHE) : bool :=
  implb (hash_isSet (md5 c)) (hash_isSet (md5 c')) &&
  implb (hash_isSet (sha1 c)) (hash_isSet (sha1 c')) &&
  implb (hash_isSet (sha256 c)) (hash_isSet (sha256 c')) &&
  implb (sum_isSet (crc32 c)) (sum_isSet (crc32 c')).

(** ** The declarations of the module *)

Inductive module_function : Type :=
| fn_data_md5 | fn_string_md5
| fn_data_sha1 | fn_string_sha1
| fn_data_sha256 | fn_string_sha256
| fn_data_checksum32 | fn_string_checksum32.

(** [declare_function(name, argument formats, return format, code)] *)
Record declaration : Type := {
  d_name : string;
  d_arguments : string;
  d_returns : string;
  d_code : module_function
}.

Definition declarations : list declaration :=
  [ {| d_name := "md5"; d_arguments := "ii"; d_returns := "s";
       d_code := fn_data_md5 |};
    {| d_name := "md5"; d_arguments := "s"; d_returns := "s";
       d_code := fn_string_md5 |};
    {| d_name := "sha1"; d_arguments := "ii"; d_returns := "s";
       d_code := fn_data_sha1 |};
    {| d_name := "sha1"; d_arguments := "s"; d_returns := "s";
       d_code := fn_string_sha1 |};
    {| d_name := "sha256"; d_arguments := "ii"; d_returns := "s";
       d_code := fn_data_sha256 |};
    {| d_name := "sha256"; d_arguments := "s"; d_returns := "s";
       d_code := fn_string_sha256 |};
    {| d_name := "checksum32"; d_arguments := "ii"; d_returns := "i";
       d_code := fn_data_checksum32 |};
    {| d_name := "checksum32"; d_arguments := "s"; d_returns := "i";
       d_code := fn_string_checksum32 |} ].

(** What [integer_argument(n)] and [sized_string_argument(n)] read. *)
Inductive argument : Type :=
| integer_argument (i : Z)
| sized_string_argument (s : list byte).

Definition argument_format (a : argument) : ascii :=
  match a with
  | integer_argument _ => "i"%char
  | sized_string_argument _ => "s"%char
  end.

Definition formats (args : list argument) : string :=
  string_of_list_ascii (map argument_format args).

Definition value_format (v : YR_VALUE) : string :=
  match v with
  | string_value _ => "s"
  | integer_value _ => "i"
  end.

(** The code of a declaration run on the arguments it reads; nothing when
    the arguments are not the ones it reads. *)
Definition call (MD5 : HASH MD5_DIGEST_LENGTH) (SHA1 : HASH SHA_DIGEST_LENGTH)
    (SHA256 : HASH SHA256_DIGEST_LENGTH) (fp : char_ptr)
    (context : YR_SCAN_CONTEXT) (cache : CACHE) (f : module_function)
    (args : list argument) : option (outcome * CACHE) :=
  match f, args with
  | fn_data_md5, [integer_argument offset; integer_argument length] =>
      Some (data_md5 MD5 fp context cache offset length)
  | fn_data_sha1, [integer_argument offset; integer_argument length] =>
      Some (data_sha1 SHA1 fp context cache offset length)
  | fn_data_sha256, [integer_argument offset; integer_argument length] =>
      Some (data_sha256 SHA256 fp context cache offset length)
  | fn_data_checksum32, [integer_argument offset; integer_argument length] =>
      Some (data_checksum32 context cache offset length)
  | fn_string_md5, [sized_string_argument s] =>
      Some (string_md5 MD5 context cache s)
  | fn_string_sha1, [sized_string_argument s] =>
      Some (string_sha1 SHA1 context cache s)
  | fn_string_sha256, [sized_string_argument s] =>
      Some (string_sha256 SHA256 context cache s)
  | fn_string_checksum32, [sized_string_argument s] =>
      Some (string_checksum32 context cache s)
  | _, _ => None
  end.

(** The arguments are the ones [ERROR_WRONG_ARGUMENTS] is returned for. *)
Definition wrong_arguments (blocks : list YR_MEMORY_BLOCK) (offset length : Z)
    : Prop :=
  offset < 0 \/ length < 0 \/
  exists first next, blocks = first :: next /\ offset < base first.

(** * Properties *)

(** ** Conversions that change nothing *)

Lemma to_size_t_id (x : Z) : 0 <= x <= INT64_MAX -> to_size_t x = x.
Proof.
  unfold to_size_t, INT64_MAX. intros H. apply Z.mod_small. lia.
Qed.

Lemma to_int64_id (x : Z) : 0 <= x <= INT64_MAX -> to_int64 x = x.
Proof.
  unfold to_int64, INT64_MAX. intros H.
  rewrite Z.mod_small by lia. lia.
Qed.

Lemma yr_min_spec (x y : Z) : yr_min x y = Z.min x y.
Proof.
  unfold yr_min. destruct (Z.ltb_spec x y); lia.
Qed.

Lemma to_uint32_range (x : Z) : 0 <= to_uint32 x < 2 ^ 32.
Proof. unfold to_uint32. apply Z.mod_pos_bound. lia. Qed.

Lemma to_uint8_range (b : byte) : 0 <= to_uint8 b <= 255.
Proof.
  unfold to_uint8. pose proof (Byte.to_N_bounded b) as H. lia.
Qed.

(** ** The four loop bodies are one *)

Lemma data_md5_body_eq :
  data_md5_body = range_body MD5_Update return_string_UNDEFINED.
Proof. reflexivity. Qed.

Lemma data_sha1_body_eq :
  data_sha1_body = range_body SHA1_Update return_string_UNDEFINED.
Proof. reflexivity. Qed.

Lemma data_sha256_body_eq :
  data_sha256_body = range_body SHA256_Update return_string_UNDEFINED.
Proof. reflexivity. Qed.

Lemma data_checksum32_body_eq :
  data_checksum32_body =
  range_body checksum_update (return_integer UNDEFINED).
Proof. reflexivity. Qed.


(** ** One step of the walk, without the conversions

    On a block whose addresses are int64 and a request that stays in that
    range, no conversion of the loop body changes a value. *)

Lemma range_body_in_range {C : Type} (update : C -> list byte -> C)
    (u : outcome) (b : YR_MEMORY_BLOCK) (s : locals C) :
  in_range_block b -> in_range_locals s ->
  range_body update u b s =
    if contains b (l_offset s) then
      if block_end b >? l_offset s + l_length s
      then Break (consume update b s) else Continue (consume update b s)
    else if l_past_first_block s then Return u
    else if block_end b >? l_offset s + l_length s
         then Break s else Continue s.
Proof.
  intros (Hb1 & Hb2 & Hb3) (Hs1 & Hs2 & Hs3).
  unfold block_end in Hb3.
  unfold range_body, contains, block_end.
  rewrite (to_int64_id (base b + size b)) by lia.
  rewrite Z.geb_leb.
  destruct (Z.leb_spec (base b) (l_offset s)) as [Hlo|Hlo]; cbn [andb];
    [destruct (Z.ltb_spec (l_offset s) (base b + size b)) as [Hhi|Hhi]|].
  - rewrite (to_size_t_id (l_offset s - base b)) by lia.
    rewrite (to_size_t_id (size b)) by lia.
    rewrite (to_size_t_id (size b - _)) by lia.
    rewrite (to_size_t_id (l_length s)) by lia.
    rewrite yr_min_spec.
    rewrite (to_size_t_id (Z.min _ _)) by lia.
    rewrite (to_size_t_id (l_offset s)) by lia.
    cbn [l_offset l_length].
    rewrite (to_int64_id (l_offset s + _)) by lia.
    rewrite (to_int64_id (l_length s - _)) by lia.
    rewrite (to_int64_id (_ + _)) by lia.
    unfold consume, block_end.
    replace (size b - (l_offset s - base b))
      with (base b + size b - l_offset s) by lia.
    replace (l_offset s + Z.min (l_length s) (base b + size b - l_offset s) +
             (l_length s - Z.min (l_length s) (base b + size b - l_offset s)))
      with (l_offset s + l_length s) by lia.
    reflexivity.
  - destruct (l_past_first_block s); [reflexivity|].
    rewrite (to_int64_id (_ + _)) by lia. reflexivity.
  - destruct (l_past_first_block s); [reflexivity|].
    rewrite (to_int64_id (_ + _)) by lia. reflexivity.
Qed.

(** ** Ascending blocks *)

Lemma ascending_from_cons (lo : Z) (b : YR_MEMORY_BLOCK)
    (next : list YR_MEMORY_BLOCK) :
  ascending_from lo (b :: next) = true ->
  lo <= base b /\ 0 <= size b /\ Z.of_nat (List.length (data b)) = size b /\
  block_end b <= INT64_MAX /\ ascending_from (block_end b) next = true.
Proof.
  cbn [ascending_from]. rewrite !andb_true_iff.
  rewrite !Z.leb_le, Z.eqb_eq. tauto.
Qed.

Lemma ascending_from_weaken (lo lo' : Z) (blocks : list YR_MEMORY_BLOCK) :
  lo' <= lo -> ascending_from lo blocks = true ->
  ascending_from lo' blocks = true.
Proof.
  destruct blocks as [|b next]; [reflexivity|].
  intros Hle H. apply ascending_from_cons in H.
  destruct H as (H1 & H2 & H3 & H4 & H5).
  cbn [ascending_from]. rewrite H5, !andb_true_iff, !Z.leb_le, Z.eqb_eq.
  repeat split; try assumption; lia.
Qed.

Lemma gaps_after_lower (blocks : list YR_MEMORY_BLOCK) :
  forall e x, ascending_from e blocks = true ->
  In x (gaps_after e blocks) -> e <= x.
Proof.
  induction blocks as [|b next IH]; intros e x Hasc Hin; [destruct Hin|].
  apply ascending_from_cons in Hasc.
  destruct Hasc as (H1 & H2 & _ & _ & H5).
  cbn [gaps_after] in Hin. apply in_app_or in Hin.
  destruct Hin as [Hin|Hin].
  - destruct (contains b e); [destruct Hin|].
    destruct Hin as [<-|[]]. lia.
  - specialize (IH _ _ H5 Hin). unfold block_end in IH. lia.
Qed.

Lemma covered_below (blocks : list YR_MEMORY_BLOCK) :
  forall e a, ascending_from e blocks = true -> a < e ->
  covered blocks a = false.
Proof.
  induction blocks as [|b next IH]; intros e a Hasc Ha; [reflexivity|].
  apply ascending_from_cons in Hasc.
  destruct Hasc as (H1 & H2 & _ & _ & H5).
  cbn [covered existsb]. fold (covered next a).
  rewrite (IH (block_end b) a H5) by (unfold block_end; lia).
  unfold contains. destruct (Z.leb_spec (base b) a); [lia|reflexivity].
Qed.

Lemma block_bytes_none (b : YR_MEMORY_BLOCK) (data_offset data_len : Z) :
  data_len <= 0 -> block_bytes b data_offset data_len = [].
Proof.
  intros H. unfold block_bytes.
  replace (Z.to_nat data_len) with 0%nat by lia. reflexivity.
Qed.

Lemma range_bytes_beyond (blocks : list YR_MEMORY_BLOCK) :
  forall e lo hi, ascending_from e blocks = true -> hi <= e ->
  flat_map (fun b => block_range b lo hi) blocks = [].
Proof.
  induction blocks as [|b next IH]; intros e lo hi Hasc Hhi; [reflexivity|].
  apply ascending_from_cons in Hasc.
  destruct Hasc as (H1 & H2 & _ & _ & H5).
  cbn [flat_map].
  rewrite (IH (block_end b) lo hi H5) by (unfold block_end; lia).
  unfold block_range. rewrite block_bytes_none by lia. reflexivity.
Qed.

Lemma range_bytes_from (blocks : list YR_MEMORY_BLOCK) :
  forall e lo lo' hi, ascending_from e blocks = true -> lo <= e -> lo' <= e ->
  flat_map (fun b => block_range b lo hi) blocks =
  flat_map (fun b => block_range b lo' hi) blocks.
Proof.
  induction blocks as [|b next IH]; intros e lo lo' hi Hasc Hlo Hlo';
    [reflexivity|].
  apply ascending_from_cons in Hasc.
  destruct Hasc as (H1 & H2 & _ & _ & H5).
  cbn [flat_map].
  rewrite (IH (block_end b) lo lo' hi H5) by (unfold block_end; lia).
  unfold block_range.
  rewrite (Z.max_r lo (base b)), (Z.max_r lo' (base b)) by lia.
  reflexivity.
Qed.

(** ** The walk over ascending blocks *)

Section Walk.

Context {C : Type}.
Variable update : C -> list byte -> C.
Variable u : outcome.
Hypothesis update_nil : forall c, update c [] = c.
Hypothesis update_app :
  forall c d1 d2, update (update c d1) d2 = update c (d1 ++ d2).

(** Once a block has contributed, every further block has to hold the
    running offset, which is the end of the block before it. *)
Lemma walk_past_first_block (blocks : list YR_MEMORY_BLOCK) :
  forall offset length c,
  ascending_from offset blocks = true ->
  0 <= offset -> 0 <= length -> offset + length <= INT64_MAX ->
  walk_value (walk update u blocks
                {| l_offset := offset; l_length := length; l_context := c;
                   l_past_first_block := true |}) =
  if existsb (fun e => e <=? offset + length) (gaps_after offset blocks)
  then None
  else Some (update c (flat_map
               (fun b => block_range b offset (offset + length)) blocks)).
Proof.
  induction blocks as [|b next IH]; intros offset length c Hasc Ho Hl Hmax.
  - cbn. now rewrite update_nil.
  - pose proof (ascending_from_cons _ _ _ Hasc) as (H1 & H2 & H3 & H4 & H5).
    unfold walk. cbn [foreach_memory_block].
    rewrite range_body_in_range
      by (unfold in_range_block, in_range_locals;
          cbn [l_offset l_length]; lia).
    cbn [l_offset l_length l_past_first_block gaps_after].
    destruct (contains b offset) eqn:Hc.
    + unfold contains in Hc. apply andb_true_iff in Hc.
      destruct Hc as [Hc1 Hc2]. apply Z.leb_le in Hc1. apply Z.ltb_lt in Hc2.
      assert (Hbase : base b = offset) by lia.
      cbn [app flat_map].
      rewrite Z.gtb_ltb.
      destruct (Z.ltb_spec (offset + length) (block_end b)) as [Hbrk|Hgo].
      * (* break *)
        cbn [walk_value consume l_past_first_block l_context].
        replace (existsb _ (gaps_after (block_end b) next)) with false.
        2:{ symmetry. apply not_true_is_false. intros Hex.
            apply existsb_exists in Hex. destruct Hex as (x & Hin & Hx).
            apply Z.leb_le in Hx.
            pose proof (gaps_after_lower _ _ _ H5 Hin). lia. }
        rewrite (range_bytes_beyond next (block_end b)) by (assumption || lia).
        rewrite app_nil_r. unfold block_range.
        do 3 f_equal; cbn [l_offset l_length]; lia.
      * (* on to the next block *)
        fold (walk update u next (consume update b
               {| l_offset := offset; l_length := length; l_context := c;
                  l_past_first_block := true |})).
        unfold consume. cbn [l_offset l_length l_context].
        rewrite (Z.min_r length (block_end b - offset)) by lia.
        replace (offset + (block_end b - offset)) with (block_end b) by lia.
        rewrite IH by (assumption || unfold block_end in *; lia).
        replace (block_end b + (length - (block_end b - offset)))
          with (offset + length) by lia.
        destruct (existsb _ (gaps_after (block_end b) next)); [reflexivity|].
        rewrite update_app.
        rewrite (range_bytes_from next (block_end b) offset (block_end b))
          by (assumption || unfold block_end in *; lia).
        unfold block_range at 2.
        do 4 f_equal; lia.
    + cbn [app existsb].
      replace (offset <=? offset + length) with true
        by (symmetry; apply Z.leb_le; lia).
      reflexivity.
Qed.

Lemma existsb_agree {A : Type} (f g : A -> bool) (l : list A) :
  (forall x, In x l -> f x = g x) -> existsb f l = existsb g l.
Proof.
  induction l as [|a l IH]; intros H; [reflexivity|].
  cbn [existsb]. rewrite (H a) by (left; reflexivity).
  rewrite IH; [reflexivity|]. intros x Hx. apply H. right. exact Hx.
Qed.

(** From the first block on: blocks that end at or before the offset are
    passed, the block that holds it starts the digest, and a block that
    begins after it means no block holds it. *)
Lemma walk_from_start (blocks : list YR_MEMORY_BLOCK) :
  forall lo offset length c,
  ascending_from lo blocks = true ->
  0 <= lo -> 0 <= offset -> 0 <= length -> offset + length <= INT64_MAX ->
  walk_value (walk update u blocks (start offset length c)) =
  option_map (update c) (resolve blocks offset length).
Proof.
  induction blocks as [|b next IH]; intros lo offset length c Hasc Hlo Ho Hl Hmax.
  - reflexivity.
  - pose proof (ascending_from_cons _ _ _ Hasc) as (H1 & H2 & H3 & H4 & H5).
    assert (Hend : base b <= block_end b) by (unfold block_end; lia).
    unfold walk, start. cbn [foreach_memory_block].
    rewrite range_body_in_range
      by (unfold in_range_block, in_range_locals;
          cbn [l_offset l_length]; lia).
    cbn [l_offset l_length l_past_first_block].
    unfold resolve, reaches_gap, range_bytes.
    cbn [covered existsb gaps flat_map].
    fold (covered next offset).
    destruct (contains b offset) eqn:Hc.
    + unfold contains in Hc. apply andb_true_iff in Hc.
      destruct Hc as [Hc1 Hc2]. apply Z.leb_le in Hc1. apply Z.ltb_lt in Hc2.
      cbn [orb andb].
      rewrite (existsb_agree _ (fun e => e <=? offset + length)).
      2:{ intros x Hin. pose proof (gaps_after_lower _ _ _ H5 Hin).
          replace (offset <? x) with true
            by (symmetry; apply Z.ltb_lt; lia).
          reflexivity. }
      rewrite Z.gtb_ltb.
      destruct (Z.ltb_spec (offset + length) (block_end b)) as [Hbrk|Hgo].
      * cbn [walk_value consume l_past_first_block l_context].
        replace (existsb _ (gaps_after (block_end b) next)) with false.
        2:{ symmetry. apply not_true_is_false. intros Hex.
            apply existsb_exists in Hex. destruct Hex as (x & Hin & Hx).
            apply Z.leb_le in Hx.
            pose proof (gaps_after_lower _ _ _ H5 Hin). lia. }
        rewrite (range_bytes_beyond next (block_end b)) by (assumption || lia).
        rewrite app_nil_r. cbn [negb option_map]. unfold block_range.
        do 3 f_equal; cbn [l_offset l_length]; lia.
      * fold (walk update u next (consume update b
               {| l_offset := offset; l_length := length; l_context := c;
                  l_past_first_block := false |})).
        unfold consume. cbn [l_offset l_length l_context].
        rewrite (Z.min_r length (block_end b - offset)) by lia.
        replace (offset + (block_end b - offset)) with (block_end b) by lia.
        rewrite walk_past_first_block by (assumption || lia).
        replace (block_end b + (length - (block_end b - offset)))
          with (offset + length) by lia.
        destruct (existsb _ (gaps_after (block_end b) next)); [reflexivity|].
        cbn [negb option_map].
        rewrite update_app.
        rewrite (range_bytes_from next (block_end b) offset (block_end b))
          by (assumption || lia).
        unfold block_range at 2.
        do 4 f_equal; lia.
    + cbn [orb].
      unfold contains in Hc. apply andb_false_iff in Hc.
      rewrite Z.leb_gt, Z.ltb_ge in Hc.
      destruct (Z.lt_ge_cases offset (base b)) as [Hbefore|Hafter].
      * (* the block starts after the offset: no block holds it *)
        rewrite (covered_below next (block_end b) offset) by (assumption || lia).
        cbn [andb option_map].
        destruct (block_end b >? offset + length); [reflexivity|].
        change (foreach_memory_block next (range_body update u) _)
          with (walk update u next (start offset length c)).
        rewrite (IH (block_end b)) by (assumption || lia).
        unfold resolve.
        rewrite (covered_below next (block_end b) offset) by (assumption || lia).
        reflexivity.
      * (* the block ends at or before the offset *)
        assert (Hpast : block_end b <= offset) by lia.
        rewrite Z.gtb_ltb.
        destruct (Z.ltb_spec (offset + length) (block_end b)); [lia|].
        change (foreach_memory_block next (range_body update u) _)
          with (walk update u next (start offset length c)).
        rewrite (IH (block_end b)) by (assumption || lia).
        unfold resolve, reaches_gap, range_bytes.
        replace (block_range b offset (offset + length)) with (@nil byte)
          by (unfold block_range; rewrite block_bytes_none by lia;
              reflexivity).
        cbn [app].
        replace (existsb _ (gaps_after (block_end b) next))
          with (existsb (fun e => (offset <? e) && (e <=? offset + length))
                  (gaps next)); [reflexivity|].
        destruct next as [|b2 rest]; [reflexivity|].
        cbn [gaps gaps_after].
        rewrite existsb_app.
        destruct (contains b2 (block_end b)); [reflexivity|].
        cbn [existsb].
        replace (offset <? block_end b) with false
          by (symmetry; apply Z.ltb_ge; lia).
        reflexivity.
Qed.

End Walk.

(** ** The walk does not depend on the engine *)

Lemma range_body_map {C D : Type} (h : C -> D)
    (update1 : C -> list byte -> C) (update2 : D -> list byte -> D)
    (u1 u2 : outcome)
    (Hh : forall c d, h (update1 c d) = update2 (h c) d)
    (b : YR_MEMORY_BLOCK) (s : locals C) :
  range_body update2 u2 b (map_locals h s) =
  match range_body update1 u1 b s with
  | Continue s' => Continue (map_locals h s')
  | Break s' => Break (map_locals h s')
  | Return _ => Return u2
  end.
Proof.
  unfold range_body.
  cbn [map_locals l_offset l_length l_past_first_block l_context].
  destruct ((l_offset s >=? base b) &&
            (l_offset s <? to_int64 (base b + size b))).
  - cbn [l_offset l_length].
    match goal with
    | |- context [if ?c then _ else _] => destruct c
    end; unfold map_locals; cbn [l_offset l_length l_context
                                   l_past_first_block];
      rewrite Hh; reflexivity.
  - destruct (l_past_first_block s) eqn:Hp; [reflexivity|].
    cbn [map_locals l_offset l_length].
    destruct (to_int64 (base b + size b) >?
              to_int64 (l_offset s + l_length s)); reflexivity.
Qed.

Lemma walk_map {C D : Type} (h : C -> D) (update1 : C -> list byte -> C)
    (update2 : D -> list byte -> D) (u1 u2 : outcome)
    (Hh : forall c d, h (update1 c d) = update2 (h c) d)
    (blocks : list YR_MEMORY_BLOCK) :
  forall s,
  walk_value (walk update2 u2 blocks (map_locals h s)) =
  option_map h (walk_value (walk update1 u1 blocks s)).
Proof.
  induction blocks as [|b next IH]; intros s.
  - cbn. destruct (l_past_first_block s); reflexivity.
  - unfold walk. cbn [foreach_memory_block].
    rewrite (range_body_map h update1 update2 u1 u2 Hh).
    destruct (range_body update1 u1 b s) as [s'|s'|r].
    + exact (IH s').
    + cbn. destruct (l_past_first_block s'); reflexivity.
    + reflexivity.
Qed.

Lemma checksum_update_app (c : list byte) (d : list byte) :
  fold_left checksum_add (c ++ d) 0 =
  checksum_update (fold_left checksum_add c 0) d.
Proof. unfold checksum_update. apply fold_left_app. Qed.

(** The four walks resolve the same bytes. *)
Lemma checksum_walk (blocks : list YR_MEMORY_BLOCK) (offset length : Z) :
  walk_value (walk checksum_update (return_integer UNDEFINED) blocks
                (start offset length 0)) =
  option_map (fun m => fold_left checksum_add m 0)
             (resolve_range blocks offset length).
Proof.
  unfold resolve_range.
  rewrite <- (walk_map (fun m => fold_left checksum_add m 0) (@app byte)
                checksum_update return_string_UNDEFINED
                (return_integer UNDEFINED) checksum_update_app).
  reflexivity.
Qed.

Lemma resolve_range_ascending (blocks : list YR_MEMORY_BLOCK)
    (offset length : Z) :
  well_formed blocks = true ->
  0 <= offset -> 0 <= length -> offset + length <= INT64_MAX ->
  resolve_range blocks offset length = resolve blocks offset length.
Proof.
  intros Hwf Ho Hl Hmax. unfold resolve_range.
  rewrite (walk_from_start (@app byte) return_string_UNDEFINED
             (@app_nil_r byte)
             (fun c d1 d2 => eq_sym (app_assoc c d1 d2)) blocks 0)
    by (assumption || lia).
  destruct (resolve blocks offset length); reflexivity.
Qed.

(** ** The data-range functions on a miss *)

Lemma walk_return {C : Type} (update : C -> list byte -> C) (u : outcome)
    (blocks : list YR_MEMORY_BLOCK) :
  forall s r, walk update u blocks s = inr r -> r = u.
Proof.
  induction blocks as [|b next IH]; intros s r H; [discriminate|].
  unfold walk in H. cbn [foreach_memory_block] in H.
  destruct (range_body update u b s) as [s'|s'|r'] eqn:Hb.
  - exact (IH _ _ H).
  - discriminate.
  - injection H as <-. unfold range_body in Hb.
    repeat match type of Hb with
    | context [if ?c then _ else _] => destruct c
    end; try discriminate; injection Hb as <-; reflexivity.
Qed.

Lemma return_string_at_live (fp : char_ptr) (s : string) :
  return_string_at fp (Some s) fp = return_string s.
Proof. unfold return_string_at. now rewrite Z.eqb_refl. Qed.

Lemma return_string_at_dead (fp p : char_ptr) :
  return_string_at fp None p = Fault (dead_array_read p).
Proof. unfold return_string_at. destruct (p =? fp); reflexivity. Qed.

Lemma valid_arguments_inv (blocks : list YR_MEMORY_BLOCK) (offset length : Z) :
  valid_arguments blocks offset length = true ->
  exists first next, blocks = first :: next /\
    (offset <? 0) = false /\ (length <? 0) = false /\
    (offset <? base first) = false.
Proof.
  unfold valid_arguments. intros H.
  apply andb_true_iff in H. destruct H as [H H3].
  apply andb_true_iff in H. destruct H as [H1 H2].
  destruct blocks as [|first next]; [discriminate|].
  exists first, next. rewrite !Z.ltb_antisym, H1, H2, H3. now repeat split.
Qed.

Section Miss.

Variable MD5 : HASH MD5_DIGEST_LENGTH.
Variable SHA1 : HASH SHA_DIGEST_LENGTH.
Variable SHA256 : HASH SHA256_DIGEST_LENGTH.
Variable fp : char_ptr.
Variable context : YR_SCAN_CONTEXT.
Variable cache : CACHE.
Variables offset length : Z.
Hypothesis valid : valid_arguments (mem_block context) offset length = true.

Lemma data_md5_miss :
  hash_hit (md5 cache) offset length = false ->
  data_md5 MD5 fp context cache offset length =
  match resolve_range (mem_block context) offset length with
  | None => (return_string_UNDEFINED,
             set_md5 cache (touch_hash (md5 cache) offset length))
  | Some m => (return_string
                 (digest_to_ascii (digest_of MD5 m) MD5_DIGEST_LENGTH),
               set_md5 cache (store_hash fp offset length))
  end.
Proof.
  intros Hmiss. unfold data_md5, MD5_CTX.
  destruct (valid_arguments_inv _ _ _ valid)
    as (first & next & Hblocks & H1 & H2 & H3).
  rewrite H1, H2. cbn [orb]. rewrite Hblocks, H3.
  change (hash_isSet (md5 cache) && (hash_offset (md5 cache) =? offset) &&
          (hash_length (md5 cache) =? length))
    with (hash_hit (md5 cache) offset length).
  rewrite Hmiss. rewrite <- Hblocks. unfold resolve_range.
  change (foreach_memory_block (mem_block context) data_md5_body _)
    with (walk (@app byte) return_string_UNDEFINED (mem_block context)
            (start offset length [])).
  destruct (walk _ _ _ _) as [s|r] eqn:Hw; cbn [walk_value].
  - destruct (l_past_first_block s); cbn [negb]; [|reflexivity].
    rewrite return_string_at_live. reflexivity.
  - apply walk_return in Hw. subst r. reflexivity.
Qed.

Lemma data_sha1_miss :
  hash_hit (sha1 cache) offset length = false ->
  data_sha1 SHA1 fp context cache offset length =
  match resolve_range (mem_block context) offset length with
  | None => (return_string_UNDEFINED,
             set_sha1 cache (touch_hash (sha1 cache) offset length))
  | Some m => (return_string
                 (digest_to_ascii (digest_of SHA1 m) SHA_DIGEST_LENGTH),
               set_sha1 cache (store_hash fp offset length))
  end.
Proof.
  intros Hmiss. unfold data_sha1, SHA_CTX.
  destruct (valid_arguments_inv _ _ _ valid)
    as (first & next & Hblocks & H1 & H2 & H3).
  rewrite H1, H2. cbn [orb]. rewrite Hblocks, H3.
  change (hash_isSet (sha1 cache) && (hash_offset (sha1 cache) =? offset) &&
          (hash_length (sha1 cache) =? length))
    with (hash_hit (sha1 cache) offset length).
  rewrite Hmiss. rewrite <- Hblocks. unfold resolve_range.
  change (foreach_memory_block (mem_block context) data_sha1_body _)
    with (walk (@app byte) return_string_UNDEFINED (mem_block context)
            (start offset length [])).
  destruct (walk _ _ _ _) as [s|r] eqn:Hw; cbn [walk_value].
  - destruct (l_past_first_block s); cbn [negb]; [|reflexivity].
    rewrite return_string_at_live. reflexivity.
  - apply walk_return in Hw. subst r. reflexivity.
Qed.

Lemma data_sha256_miss :
  hash_hit (sha256 cache) offset length = false ->
  data_sha256 SHA256 fp context cache offset length =
  match resolve_range (mem_block context) offset length with
  | None => (return_string_UNDEFINED,
             set_sha256 cache (touch_hash (sha256 cache) offset length))
  | Some m => (return_string
                 (digest_to_ascii (digest_of SHA256 m) SHA256_DIGEST_LENGTH),
               set_sha256 cache (store_hash fp offset length))
  end.
Proof.
  intros Hmiss. unfold data_sha256, SHA256_CTX.
  destruct (valid_arguments_inv _ _ _ valid)
    as (first & next & Hblocks & H1 & H2 & H3).
  rewrite H1, H2. cbn [orb]. rewrite Hblocks, H3.
  change (hash_isSet (sha256 cache) && (hash_offset (sha256 cache) =? offset)
          && (hash_length (sha256 cache) =? length))
    with (hash_hit (sha256 cache) offset length).
  rewrite Hmiss. rewrite <- Hblocks. unfold resolve_range.
  change (foreach_memory_block (mem_block context) data_sha256_body _)
    with (walk (@app byte) return_string_UNDEFINED (mem_block context)
            (start offset length [])).
  destruct (walk _ _ _ _) as [s|r] eqn:Hw; cbn [walk_value].
  - destruct (l_past_first_block s); cbn [negb]; [|reflexivity].
    rewrite return_string_at_live. reflexivity.
  - apply walk_return in Hw. subst r. reflexivity.
Qed.

Lemma data_checksum32_miss :
  sum_hit (crc32 cache) offset length = false ->
  data_checksum32 context cache offset length =
  match resolve_range (mem_block context) offset length with
  | None => (return_integer UNDEFINED,
             set_crc32 cache (touch_sum (crc32 cache) offset length))
  | Some m => (return_integer (fold_left checksum_add m 0),
               set_crc32 cache
                 (store_sum offset length (fold_left checksum_add m 0)))
  end.
Proof.
  intros Hmiss. unfold data_checksum32.
  destruct (valid_arguments_inv _ _ _ valid)
    as (first & next & Hblocks & H1 & H2 & H3).
  rewrite H1, H2. cbn [orb]. rewrite Hblocks, H3.
  change (sum_isSet (crc32 cache) && (sum_offset (crc32 cache) =? offset) &&
          (sum_length (crc32 cache) =? length))
    with (sum_hit (crc32 cache) offset length).
  rewrite Hmiss. rewrite <- Hblocks.
  pose proof (checksum_walk (mem_block context) offset length) as Hsum.
  change (foreach_memory_block (mem_block context) data_checksum32_body _)
    with (walk checksum_update (return_integer UNDEFINED) (mem_block context)
            (start offset length 0)).
  destruct (walk checksum_update _ _ _) as [s|r] eqn:Hw;
    cbn [walk_value] in Hsum.
  - destruct (l_past_first_block s); cbn [negb];
      destruct (resolve_range _ _ _); try discriminate; [|reflexivity].
    injection Hsum as ->. reflexivity.
  - apply walk_return in Hw. subst r.
    destruct (resolve_range _ _ _); [discriminate|reflexivity].
Qed.

End Miss.

(** ** The sum *)

Lemma byte_sum_nonneg (m : list byte) : 0 <= byte_sum m.
Proof.
  induction m as [|b m IH]; cbn [byte_sum fold_right]; [lia|].
  fold (byte_sum m). pose proof (to_uint8_range b). lia.
Qed.

Lemma checksum_fold (m : list byte) :
  forall a, 0 <= a < 2 ^ 32 ->
  fold_left checksum_add m a = (a + byte_sum m) mod 2 ^ 32.
Proof.
  induction m as [|b m IH]; intros a Ha.
  - cbn. rewrite Z.add_0_r. symmetry. apply Z.mod_small. exact Ha.
  - cbn [fold_left byte_sum fold_right]. fold (byte_sum m).
    rewrite IH by apply to_uint32_range.
    unfold checksum_add, to_uint32.
    rewrite Zplus_mod_idemp_l. f_equal. lia.
Qed.

Lemma checksum_is_sum (m : list byte) :
  fold_left checksum_add m 0 = byte_sum m mod 2 ^ 32.
Proof. rewrite checksum_fold by lia. reflexivity. Qed.

Lemma checksum_defined (m : list byte) :
  is_undefined (integer_value (fold_left checksum_add m 0)) = false.
Proof.
  rewrite checksum_is_sum. cbn [is_undefined].
  apply Z.eqb_neq.
  pose proof (Z.mod_pos_bound (byte_sum m) (2 ^ 32) ltac:(lia)) as H.
  unfold UNDEFINED. lia.
Qed.

(** ** All four results on a miss *)

Lemma cold_inv (cache : CACHE) (offset length : Z) :
  cold cache offset length = true ->
  hash_hit (md5 cache) offset length = false /\
  hash_hit (sha1 cache) offset length = false /\
  hash_hit (sha256 cache) offset length = false /\
  sum_hit (crc32 cache) offset length = false.
Proof.
  unfold cold. rewrite !andb_true_iff, !negb_true_iff. tauto.
Qed.

Lemma data_results_cold (MD5 : HASH MD5_DIGEST_LENGTH)
    (SHA1 : HASH SHA_DIGEST_LENGTH) (SHA256 : HASH SHA256_DIGEST_LENGTH)
    (fp : char_ptr) (context : YR_SCAN_CONTEXT) (cache : CACHE)
    (offset length : Z) :
  valid_arguments (mem_block context) offset length = true ->
  cold cache offset length = true ->
  data_results MD5 SHA1 SHA256 fp context cache offset length =
  match resolve_range (mem_block context) offset length with
  | Some m => string_results MD5 SHA1 SHA256 context cache m
  | None => undefined_results
  end.
Proof.
  intros Hv Hc. apply cold_inv in Hc. destruct Hc as (H1 & H2 & H3 & H4).
  unfold data_results.
  rewrite (data_md5_miss MD5 fp context cache offset length Hv H1).
  rewrite (data_sha1_miss SHA1 fp context cache offset length Hv H2).
  rewrite (data_sha256_miss SHA256 fp context cache offset length Hv H3).
  rewrite (data_checksum32_miss context cache offset length Hv H4).
  destruct (resolve_range (mem_block context) offset length); reflexivity.
Qed.

Lemma data_results_ascending (MD5 : HASH MD5_DIGEST_LENGTH)
    (SHA1 : HASH SHA_DIGEST_LENGTH) (SHA256 : HASH SHA256_DIGEST_LENGTH)
    (fp : char_ptr) (context : YR_SCAN_CONTEXT) (cache : CACHE)
    (offset length : Z) :
  well_formed (mem_block context) = true ->
  valid_arguments (mem_block context) offset length = true ->
  offset + length <= INT64_MAX ->
  cold cache offset length = true ->
  data_results MD5 SHA1 SHA256 fp context cache offset length =
  match resolve (mem_block context) offset length with
  | Some m => string_results MD5 SHA1 SHA256 context cache m
  | None => undefined_results
  end.
Proof.
  intros Hwf Hv Hmax Hc.
  rewrite data_results_cold by assumption.
  rewrite resolve_range_ascending; [reflexivity|assumption| | |assumption].
  all: unfold valid_arguments in Hv; rewrite !andb_true_iff, !Z.leb_le in Hv;
    lia.
Qed.

(** ** Hexadecimal text *)

Lemma get_In (s : string) :
  forall i c, String.get i s = Some c -> In c (list_ascii_of_string s).
Proof.
  induction s as [|a s IH]; intros i c H; [discriminate|].
  destruct i as [|i]; cbn in H.
  - injection H as <-. left. reflexivity.
  - right. exact (IH _ _ H).
Qed.

Lemma hex_digit_In (n : N) : In (hex_digit n) (list_ascii_of_string hex_digits).
Proof.
  unfold hex_digit.
  destruct (String.get (N.to_nat n) hex_digits) as [c|] eqn:H.
  - exact (get_In _ _ _ H).
  - left. reflexivity.
Qed.

Lemma string_of_list_ascii_length (l : list ascii) :
  String.length (string_of_list_ascii l) = List.length l.
Proof. induction l as [|a l IH]; cbn; congruence. Qed.

Lemma digest_to_ascii_length (d : list byte) (n : nat) :
  List.length d = n ->
  String.length (digest_to_ascii d n) = (2 * n)%nat.
Proof.
  intros <-. unfold digest_to_ascii.
  rewrite string_of_list_ascii_length, firstn_all.
  induction d as [|b d IH]; [reflexivity|].
  cbn [flat_map sprintf_02x List.length app]. rewrite IH. lia.
Qed.

Lemma digest_to_ascii_hex (d : list byte) (n : nat) :
  lowercase_hex (digest_to_ascii d n).
Proof.
  unfold lowercase_hex, digest_to_ascii.
  rewrite list_ascii_of_string_of_list_ascii.
  induction (firstn n d) as [|b l IH]; [constructor|].
  cbn [flat_map sprintf_02x app].
  repeat (constructor; [apply hex_digit_In|]). exact IH.
Qed.

(** What [digest_to_ascii] writes is read back byte by byte. *)
Lemma hex_decode_sprintf (b : byte) (rest : list ascii) :
  hex_decode (string_of_list_ascii (sprintf_02x b ++ rest)) =
  b :: hex_decode (string_of_list_ascii rest).
Proof.
  cbn [sprintf_02x app string_of_list_ascii hex_decode]. f_equal.
  destruct b; reflexivity.
Qed.

Lemma hex_decode_flat_map (d : list byte) :
  hex_decode (string_of_list_ascii (flat_map sprintf_02x d)) = d.
Proof.
  induction d as [|b d IH]; [reflexivity|].
  cbn [flat_map]. rewrite hex_decode_sprintf, IH. reflexivity.
Qed.

Lemma hex_decode_digest_to_ascii (d : list byte) (n : nat) :
  List.length d = n -> hex_decode (digest_to_ascii d n) = d.
Proof.
  intros <-. unfold digest_to_ascii. rewrite firstn_all.
  apply hex_decode_flat_map.
Qed.

(** ** Defined and undefined results *)

Lemma string_results_defined (MD5 : HASH MD5_DIGEST_LENGTH)
    (SHA1 : HASH SHA_DIGEST_LENGTH) (SHA256 : HASH SHA256_DIGEST_LENGTH)
    (context : YR_SCAN_CONTEXT) (cache : CACHE) (s : list byte) :
  Forall (fun r => defined r = true)
         (string_results MD5 SHA1 SHA256 context cache s).
Proof.
  unfold string_results.
  repeat (constructor; [reflexivity|]).
  constructor; [|constructor].
  unfold string_checksum32, fst, return_integer, defined.
  rewrite checksum_defined. reflexivity.
Qed.

Lemma undefined_results_undefined :
  Forall (fun r => defined r = false) undefined_results.
Proof. repeat constructor. Qed.

(** ** Gaps and empty ranges *)

Lemma crosses_reaches (blocks : list YR_MEMORY_BLOCK) (offset length : Z) :
  crosses_gap blocks offset length = true ->
  reaches_gap blocks offset length = true.
Proof.
  unfold crosses_gap, reaches_gap. rewrite !existsb_exists.
  intros (e & Hin & He). exists e. split; [exact Hin|].
  apply andb_true_iff in He. destruct He as [H1 H2].
  rewrite H1. apply Z.ltb_lt in H2. apply Z.leb_le. lia.
Qed.



(** ** The cache *)

Lemma hash_hit_exact (e : CACHED_HASH) (offset length : Z) :
  hash_hit e offset length = true <->
  hash_isSet e = true /\ hash_offset e = offset /\ hash_length e = length.
Proof.
  unfold hash_hit. rewrite !andb_true_iff, !Z.eqb_eq. tauto.
Qed.

Lemma sum_hit_exact (e : CACHED_CHECKSUM) (offset length : Z) :
  sum_hit e offset length = true <->
  sum_isSet e = true /\ sum_offset e = offset /\ sum_length e = length.
Proof.
  unfold sum_hit. rewrite !andb_true_iff, !Z.eqb_eq. tauto.
Qed.

(** On a hit checksum32 returns the stored sum and reads no block beyond
    the base of the first. *)
Lemma data_checksum32_hit (context : YR_SCAN_CONTEXT) (cache : CACHE)
    (offset length : Z) :
  valid_arguments (mem_block context) offset length = true ->
  sum_hit (crc32 cache) offset length = true ->
  data_checksum32 context cache offset length =
    (return_integer (sum (crc32 cache)), cache).
Proof.
  intros Hv Hhit. unfold data_checksum32.
  destruct (valid_arguments_inv _ _ _ Hv)
    as (first & next & Hblocks & H1 & H2 & H3).
  rewrite H1, H2. cbn [orb]. rewrite Hblocks, H3.
  change (sum_isSet (crc32 cache) && (sum_offset (crc32 cache) =? offset) &&
          (sum_length (crc32 cache) =? length))
    with (sum_hit (crc32 cache) offset length).
  now rewrite Hhit.
Qed.

(** On a hit a hash function returns what stands at the stored address,
    and no array stands there any more. *)
Lemma data_md5_hit (MD5 : HASH MD5_DIGEST_LENGTH) (fp : char_ptr)
    (context : YR_SCAN_CONTEXT) (cache : CACHE) (offset length : Z) :
  valid_arguments (mem_block context) offset length = true ->
  hash_hit (md5 cache) offset length = true ->
  data_md5 MD5 fp context cache offset length =
    (Fault (dead_array_read (digest (md5 cache))), cache).
Proof.
  intros Hv Hhit. unfold data_md5.
  destruct (valid_arguments_inv _ _ _ Hv)
    as (first & next & Hblocks & H1 & H2 & H3).
  rewrite H1, H2. cbn [orb]. rewrite Hblocks, H3.
  change (hash_isSet (md5 cache) && (hash_offset (md5 cache) =? offset) &&
          (hash_length (md5 cache) =? length))
    with (hash_hit (md5 cache) offset length).
  now rewrite Hhit, return_string_at_dead.
Qed.

(** A defined checksum32 is returned again, from the cache, whatever the
    blocks hold by then. *)
Lemma data_checksum32_again (context context' : YR_SCAN_CONTEXT)
    (cache : CACHE) (offset length : Z) :
  valid_arguments (mem_block context) offset length = true ->
  valid_arguments (mem_block context') offset length = true ->
  sum_hit (crc32 cache) offset length = false ->
  defined (fst (data_checksum32 context cache offset length)) = true ->
  data_checksum32 context'
    (snd (data_checksum32 context cache offset length)) offset length =
  data_checksum32 context cache offset length.
Proof.
  intros Hv Hv' Hmiss Hdef.
  rewrite (data_checksum32_miss context cache offset length Hv Hmiss) in *.
  destruct (resolve_range (mem_block context) offset length) as [m|];
    [|discriminate Hdef].
  cbn [snd]. rewrite data_checksum32_hit; [reflexivity|exact Hv'|].
  apply sum_hit_exact. now repeat split.
Qed.

(** Each function writes to its own entry only. *)
Lemma data_md5_frame (MD5 : HASH MD5_DIGEST_LENGTH) (fp : char_ptr)
    (context : YR_SCAN_CONTEXT) (cache : CACHE) (offset length : Z) :
  let cache' := snd (data_md5 MD5 fp context cache offset length) in
  sha1 cache' = sha1 cache /\ sha256 cache' = sha256 cache /\
  crc32 cache' = crc32 cache.
Proof.
  unfold data_md5.
  repeat match goal with
  | |- context [if ?c then _ else _] => destruct c
  | |- context [match ?x with _ => _ end] => destruct x
  end; repeat split.
Qed.

Lemma data_sha1_frame (SHA1 : HASH SHA_DIGEST_LENGTH) (fp : char_ptr)
    (context : YR_SCAN_CONTEXT) (cache : CACHE) (offset length : Z) :
  let cache' := snd (data_sha1 SHA1 fp context cache offset length) in
  md5 cache' = md5 cache /\ sha256 cache' = sha256 cache /\
  crc32 cache' = crc32 cache.
Proof.
  unfold data_sha1.
  repeat match goal with
  | |- context [if ?c then _ else _] => destruct c
  | |- context [match ?x with _ => _ end] => destruct x
  end; repeat split.
Qed.

Lemma data_sha256_frame (SHA256 : HASH SHA256_DIGEST_LENGTH) (fp : char_ptr)
    (context : YR_SCAN_CONTEXT) (cache : CACHE) (offset length : Z) :
  let cache' := snd (data_sha256 SHA256 fp context cache offset length) in
  md5 cache' = md5 cache /\ sha1 cache' = sha1 cache /\
  crc32 cache' = crc32 cache.
Proof.
  unfold data_sha256.
  repeat match goal with
  | |- context [if ?c then _ else _] => destruct c
  | |- context [match ?x with _ => _ end] => destruct x
  end; repeat split.
Qed.

Lemma data_checksum32_frame (context : YR_SCAN_CONTEXT) (cache : CACHE)
    (offset length : Z) :
  let cache' := snd (data_checksum32 context cache offset length) in
  md5 cache' = md5 cache /\ sha1 cache' = sha1 cache /\
  sha256 cache' = sha256 cache.
Proof.
  unfold data_checksum32.
  repeat match goal with
  | |- context [if ?c then _ else _] => destruct c
  | |- context [match ?x with _ => _ end] => destruct x
  end; repeat split.
Qed.

(** The accumulator wraps: one more byte on top of 2^32 - 1 gives 0. *)
Example checksum_add_wraps : checksum_add (2 ^ 32 - 1) "001"%byte = 0.
Proof. reflexivity. Qed.

(** * The specification, statement by statement *)

(** C9: every literal-string operation returns a defined digest of exactly
    the bytes it is given, whatever the scan context and the cache hold,
    and leaves the cache as it found it; the three hashes come back as
    lowercase hexadecimal text of 32, 40 and 64 characters that reads back,
    two characters a byte, as the digest the engine gives for those bytes,
    and checksum32 as the byte sum reduced modulo 2^32. *)
Theorem C9_string_forms (MD5 : HASH MD5_DIGEST_LENGTH)
    (SHA1 : HASH SHA_DIGEST_LENGTH) (SHA256 : HASH SHA256_DIGEST_LENGTH)
    (context : YR_SCAN_CONTEXT) (cache : CACHE) (s : list byte) :
  let md5_text := digest_to_ascii (digest_of MD5 s) MD5_DIGEST_LENGTH in
  let sha1_text := digest_to_ascii (digest_of SHA1 s) SHA_DIGEST_LENGTH in
  let sha256_text :=
    digest_to_ascii (digest_of SHA256 s) SHA256_DIGEST_LENGTH in
  string_md5 MD5 context cache s = (return_string md5_text, cache) /\
  string_sha1 SHA1 context cache s = (return_string sha1_text, cache) /\
  string_sha256 SHA256 context cache s = (return_string sha256_text, cache) /\
  string_checksum32 context cache s =
    (return_integer (byte_sum s mod 2 ^ 32), cache) /\
  (String.length md5_text = 32%nat /\ lowercase_hex md5_text) /\
  (String.length sha1_text = 40%nat /\ lowercase_hex sha1_text) /\
  (String.length sha256_text = 64%nat /\ lowercase_hex sha256_text) /\
  Forall (fun r => defined r = true)
         (string_results MD5 SHA1 SHA256 context cache s) /\
  (exists text, fst (string_md5 MD5 context cache s) = return_string text /\
                hex_decode text = digest_of MD5 s) /\
  (exists text, fst (string_sha1 SHA1 context cache s) = return_string text /\
                hex_decode text = digest_of SHA1 s) /\
  (exists text,
     fst (string_sha256 SHA256 context cache s) = return_string text /\
     hex_decode text = digest_of SHA256 s).
Proof.
  cbv zeta.
  split; [reflexivity|]. split; [reflexivity|]. split; [reflexivity|].
  split; [|split; [|split; [|split; [|split; [|split; [|split]]]]]].
  - unfold string_checksum32. rewrite checksum_is_sum. reflexivity.
  - split.
    + exact (digest_to_ascii_length _ _ (digest_of_length MD5 s)).
    + apply digest_to_ascii_hex.
  - split.
    + exact (digest_to_ascii_length _ _ (digest_of_length SHA1 s)).
    + apply digest_to_ascii_hex.
  - split.
    + exact (digest_to_ascii_length _ _ (digest_of_length SHA256 s)).
    + apply digest_to_ascii_hex.
  - apply string_results_defined.
  - eexists. split; [reflexivity|].
    exact (hex_decode_digest_to_ascii _ _ (digest_of_length MD5 s)).
  - eexists. split; [reflexivity|].
    exact (hex_decode_digest_to_ascii _ _ (digest_of_length SHA1 s)).
  - eexists. split; [reflexivity|].
    exact (hex_decode_digest_to_ascii _ _ (digest_of_length SHA256 s)).
Qed.

(** C4: with a negative offset, a negative length or an offset below the
    base of the first block, each data-range operation returns
    ERROR_WRONG_ARGUMENTS, which is no return value at all and so not the
    undefined one, and hands the cache back untouched. *)
Theorem C4_invalid_arguments (MD5 : HASH MD5_DIGEST_LENGTH)
    (SHA1 : HASH SHA_DIGEST_LENGTH) (SHA256 : HASH SHA256_DIGEST_LENGTH)
    (fp : char_ptr) (context : YR_SCAN_CONTEXT) (cache : CACHE)
    (offset length : Z) :
  offset < 0 \/ length < 0 \/
  (exists first next,
     mem_block context = first :: next /\ offset < base first) ->
  data_md5 MD5 fp context cache offset length =
    (Error ERROR_WRONG_ARGUMENTS, cache) /\
  data_sha1 SHA1 fp context cache offset length =
    (Error ERROR_WRONG_ARGUMENTS, cache) /\
  data_sha256 SHA256 fp context cache offset length =
    (Error ERROR_WRONG_ARGUMENTS, cache) /\
  data_checksum32 context cache offset length =
    (Error ERROR_WRONG_ARGUMENTS, cache) /\
  (forall v, Error ERROR_WRONG_ARGUMENTS <> Done v).
Proof.
  intros H.
  assert (Hcases : (offset <? 0) || (length <? 0) = true \/
            exists first next, mem_block context = first :: next /\
              (offset <? base first) = true).
  { destruct H as [H|[H|(first & next & Hb & H)]].
    - left. apply orb_true_iff. left. now apply Z.ltb_lt.
    - left. apply orb_true_iff. right. now apply Z.ltb_lt.
    - right. exists first, next. split; [exact Hb|now apply Z.ltb_lt]. }
  unfold data_md5, data_sha1, data_sha256, data_checksum32.
  destruct Hcases as [Hneg|(first & next & Hb & Hlow)].
  - rewrite Hneg. repeat split. discriminate.
  - rewrite Hb, Hlow.
    destruct ((offset <? 0) || (length <? 0)); repeat split; discriminate.
Qed.

Lemma C4_invalid_arguments_witness :
  -1 < 0 /\
  data_md5 (pad_hash 16) 7 one_block empty_cache (-1) 4 =
    (Error ERROR_WRONG_ARGUMENTS, empty_cache) /\
  data_checksum32 one_block empty_cache (-1) 4 =
    (Error ERROR_WRONG_ARGUMENTS, empty_cache).
Proof.
  split; [lia|].
  pose proof (C4_invalid_arguments (pad_hash 16) (pad_hash 20) (pad_hash 32)
                7 one_block empty_cache (-1) 4) as H.
  destruct H as (H1 & _ & _ & H4 & _); [left; lia|].
  split; assumption.
Defined.




(** C2, as amended: over ascending blocks and with no cached answer, the
    result of every data-range operation is undefined when no block holds
    the first offset and when the range runs across a gap between two
    blocks; it is defined, the digest of the bytes the blocks hold in the
    range, when a block holds the first offset and no gap lies in the range
    or at its end.  A range that runs past the last block is therefore
    digested as far as the data goes. *)
Theorem C2_undefined_across_gaps (MD5 : HASH MD5_DIGEST_LENGTH)
    (SHA1 : HASH SHA_DIGEST_LENGTH) (SHA256 : HASH SHA256_DIGEST_LENGTH)
    (fp : char_ptr) (context : YR_SCAN_CONTEXT) (cache : CACHE)
    (offset length : Z) :
  well_formed (mem_block context) = true ->
  valid_arguments (mem_block context) offset length = true ->
  offset + length <= INT64_MAX ->
  cold cache offset length = true ->
  (covered (mem_block context) offset = false \/
   crosses_gap (mem_block context) offset length = true ->
   data_results MD5 SHA1 SHA256 fp context cache offset length =
     undefined_results) /\
  (covered (mem_block context) offset = true ->
   reaches_gap (mem_block context) offset length = false ->
   data_results MD5 SHA1 SHA256 fp context cache offset length =
     string_results MD5 SHA1 SHA256 context cache
       (range_bytes (mem_block context) offset length) /\
   Forall (fun r => defined r = true)
     (data_results MD5 SHA1 SHA256 fp context cache offset length)).
Proof.
  intros Hwf Hv Hmax Hc.
  rewrite (data_results_ascending MD5 SHA1 SHA256 fp context cache offset
             length Hwf Hv Hmax Hc).
  unfold resolve. split.
  - intros [Hno|Hgap].
    + rewrite Hno. reflexivity.
    + rewrite (crosses_reaches _ _ _ Hgap), andb_false_r. reflexivity.
  - intros Hin Hgap. rewrite Hin, Hgap. cbn [andb negb].
    split; [reflexivity|apply string_results_defined].
Qed.

Lemma C2_undefined_across_gaps_witness :
  well_formed (mem_block distant_blocks) = true /\
  valid_arguments (mem_block distant_blocks) 2 4 = true /\
  2 + 4 <= INT64_MAX /\
  cold empty_cache 2 4 = true /\
  crosses_gap (mem_block distant_blocks) 2 4 = true /\
  data_results (pad_hash 16) (pad_hash 20) (pad_hash 32) 7 distant_blocks
    empty_cache 2 4 = undefined_results.
Proof.
  repeat (split; [reflexivity || (unfold INT64_MAX; lia)|]).
  refine (proj1 (C2_undefined_across_gaps (pad_hash 16) (pad_hash 20)
                   (pad_hash 32) 7 distant_blocks empty_cache 2 4
                   eq_refl eq_refl _ eq_refl) (or_intror eq_refl)).
  unfold INT64_MAX. lia.
Defined.

(** C2, as the claim has it, fails on the blocks "abcd" at 0 and "efgh" at
    4 with the request (0, 20): the range is not fully covered, and the
    four results are the digests of the eight bytes there are. *)
Lemma C2_counterexample :
  ~ (data_results (pad_hash 16) (pad_hash 20) (pad_hash 32) 7 adjacent_blocks
       empty_cache 0 20 = undefined_results <->
     ~ fully_covered (mem_block adjacent_blocks) 0 20).
Proof.
  intros [_ H].
  assert (Hnot : ~ fully_covered (mem_block adjacent_blocks) 0 20).
  { intros Hall. specialize (Hall 10 ltac:(lia)). discriminate Hall. }
  specialize (H Hnot). vm_compute in H. discriminate H.
Qed.




(** C1 fails on the code: with the blocks "abcd" at 0 and "efgh" at 10 the
    request (0, 4) lies in the first block, the literal-string forms
    digest its four bytes, and the four data-range operations return
    undefined, because after the first block has been consumed to its end
    the walk goes on to the second. *)
Theorem C1_range_up_to_block_end_is_undefined (MD5 : HASH MD5_DIGEST_LENGTH)
    (SHA1 : HASH SHA_DIGEST_LENGTH) (SHA256 : HASH SHA256_DIGEST_LENGTH)
    (fp : char_ptr) :
  well_formed (mem_block distant_blocks) = true /\
  valid_arguments (mem_block distant_blocks) 0 4 = true /\
  fully_covered (mem_block distant_blocks) 0 4 /\
  range_bytes (mem_block distant_blocks) 0 4 = list_byte_of_string "abcd" /\
  data_results MD5 SHA1 SHA256 fp distant_blocks empty_cache 0 4 =
    undefined_results /\
  Forall (fun r => defined r = true)
    (string_results MD5 SHA1 SHA256 distant_blocks empty_cache
       (list_byte_of_string "abcd")).
Proof.
  split; [reflexivity|]. split; [reflexivity|].
  split; [|split; [reflexivity|split]].
  - intros a Ha. unfold covered, distant_blocks, mem_block, existsb.
    replace (contains (block_of "abcd" 0) a) with true; [reflexivity|].
    symmetry. unfold contains, block_end. cbn.
    apply andb_true_iff. split; [apply Z.leb_le|apply Z.ltb_lt]; lia.
  - rewrite data_results_cold by reflexivity. reflexivity.
  - apply string_results_defined.
Qed.

(** C3 fails on the code: the offset and length of a request are written
    to the cache entry before the blocks are walked, so a call that ends
    undefined leaves them behind.  After checksum32(0, 4) has stored 394,
    the undefined request (100, 4) turns the entry into (100, 4, 394), and
    the same request asked again is answered 394 from the cache. *)
Theorem C3_undefined_call_writes_cache (MD5 : HASH MD5_DIGEST_LENGTH)
    (fp : char_ptr) :
  let c1 := snd (data_checksum32 one_block empty_cache 0 4) in
  let failed := data_checksum32 one_block c1 100 4 in
  crc32 c1 = store_sum 0 4 394 /\
  fst failed = return_integer UNDEFINED /\
  crc32 (snd failed) = store_sum 100 4 394 /\
  snd failed <> c1 /\
  data_checksum32 one_block (snd failed) 100 4 =
    (return_integer 394, snd failed) /\
  fst (data_md5 MD5 fp one_block empty_cache 100 4) =
    return_string_UNDEFINED /\
  md5 (snd (data_md5 MD5 fp one_block empty_cache 100 4)) =
    touch_hash empty_hash 100 4 /\
  touch_hash empty_hash 100 4 <> empty_hash.
Proof.
  cbv zeta. repeat (split; [reflexivity || discriminate|]). discriminate.
Qed.

(** C5 fails on the code for the three hashes: the cache keeps the address
    of the local array [digest_ascii] of the call that computed the digest,
    and the second, identical call returns the string at that address
    after the array has gone.  Only checksum32 keeps its value itself. *)
Theorem C5_second_hash_call_reads_dead_array (MD5 : HASH MD5_DIGEST_LENGTH)
    (SHA1 : HASH SHA_DIGEST_LENGTH) (SHA256 : HASH SHA256_DIGEST_LENGTH)
    (fp fp' : char_ptr) :
  let abcd := list_byte_of_string "abcd" in
  let md5_1 := data_md5 MD5 fp one_block empty_cache 0 4 in
  let sha1_1 := data_sha1 SHA1 fp one_block empty_cache 0 4 in
  let sha256_1 := data_sha256 SHA256 fp one_block empty_cache 0 4 in
  (fst md5_1 =
     return_string (digest_to_ascii (digest_of MD5 abcd) MD5_DIGEST_LENGTH) /\
   md5 (snd md5_1) = store_hash fp 0 4 /\
   data_md5 MD5 fp' one_block (snd md5_1) 0 4 =
     (Fault (dead_array_read fp), snd md5_1)) /\
  (fst sha1_1 =
     return_string (digest_to_ascii (digest_of SHA1 abcd) SHA_DIGEST_LENGTH) /\
   sha1 (snd sha1_1) = store_hash fp 0 4 /\
   data_sha1 SHA1 fp' one_block (snd sha1_1) 0 4 =
     (Fault (dead_array_read fp), snd sha1_1)) /\
  (fst sha256_1 =
     return_string
       (digest_to_ascii (digest_of SHA256 abcd) SHA256_DIGEST_LENGTH) /\
   sha256 (snd sha256_1) = store_hash fp 0 4 /\
   data_sha256 SHA256 fp' one_block (snd sha256_1) 0 4 =
     (Fault (dead_array_read fp), snd sha256_1)).
Proof.
  cbv zeta.
  rewrite (data_md5_miss MD5 fp one_block empty_cache 0 4 eq_refl eq_refl).
  rewrite (data_sha1_miss SHA1 fp one_block empty_cache 0 4 eq_refl eq_refl).
  rewrite (data_sha256_miss SHA256 fp one_block empty_cache 0 4
             eq_refl eq_refl).
  change (resolve_range (mem_block one_block) 0 4)
    with (Some (list_byte_of_string "abcd")).
  cbv iota. cbn [fst snd].
  unfold data_md5, data_sha1, data_sha256.
  cbn [md5 sha1 sha256 set_md5 set_sha1 set_sha256 store_hash hash_isSet
       hash_offset hash_length digest one_block mem_block Z.ltb Z.eqb
       Z.compare Pos.compare Pos.compare_cont Pos.eqb orb andb base block_of].
  rewrite !return_string_at_dead.
  repeat split.
Qed.

(** C6 fails on the code: a cached value is returned for a request that
    did not produce it.  With the blocks "abcd" at 0 and "efgh" at 10,
    checksum32(0, 2) stores 195; the overlapping request (1, 4) runs into
    the gap, returns undefined and leaves its offset and length in the
    entry; asked again, (1, 4) is a hit and returns 195. *)
Theorem C6_cached_value_for_another_request :
  let c1 := snd (data_checksum32 distant_blocks empty_cache 0 2) in
  let c2 := snd (data_checksum32 distant_blocks c1 1 4) in
  fst (data_checksum32 distant_blocks empty_cache 0 2) = return_integer 195 /\
  sum_hit (crc32 c1) 1 4 = false /\
  fst (data_checksum32 distant_blocks c1 1 4) = return_integer UNDEFINED /\
  sum_hit (crc32 c2) 1 4 = true /\
  fst (data_checksum32 distant_blocks c2 1 4) = return_integer 195.
Proof.
  cbv zeta. repeat split.
Qed.

(** C8 fails on the code: [module_load] stores nothing in the block it
    allocates, so the entries are whatever the heap held.  On a block whose
    bytes read as a set checksum entry for (0, 4), the first
    checksum32(0, 4) of the session is answered from the cache with the
    stale 12345 and not with the 394 the block sums to. *)
Theorem C8_cache_not_initialised :
  (forall heap, module_load heap = (ERROR_SUCCESS, heap)) /\
  sum_isSet (crc32 (snd (module_load used_heap))) = true /\
  fst (data_checksum32 one_block (snd (module_load used_heap)) 0 4) =
    return_integer 12345 /\
  fst (data_checksum32 one_block empty_cache 0 4) = return_integer 394.
Proof.
  repeat split.
Qed.

(** * Further properties of the module *)

(** ** [digest_to_ascii] *)

(** X1: the text [digest_to_ascii] writes is read back to the digest it was
    written from, so two digests of the stated length with the same text
    are the same digest. *)
Theorem X1_digest_to_ascii_round_trip (d d' : list byte) (n : nat) :
  List.length d = n -> List.length d' = n ->
  hex_decode (digest_to_ascii d n) = d /\
  (digest_to_ascii d n = digest_to_ascii d' n -> d = d').
Proof.
  intros Hd Hd'.
  assert (Hback : forall x, List.length x = n ->
            hex_decode (digest_to_ascii x n) = x).
  { intros x Hx. unfold digest_to_ascii. rewrite <- Hx, firstn_all.
    apply hex_decode_flat_map. }
  split; [exact (Hback d Hd)|].
  intros Heq. rewrite <- (Hback d Hd), <- (Hback d' Hd'), Heq. reflexivity.
Qed.

Lemma X1_digest_to_ascii_round_trip_witness :
  hex_decode (digest_to_ascii (pad 16 (list_byte_of_string "abcd")) 16) =
  pad 16 (list_byte_of_string "abcd").
Proof.
  exact (proj1 (X1_digest_to_ascii_round_trip
                  (pad 16 (list_byte_of_string "abcd"))
                  (pad 16 (list_byte_of_string "abcd")) 16
                  (pad_length 16 _) (pad_length 16 _))).
Defined.

(** ** [string_checksum32] *)

Lemma byte_sum_app (a b : list byte) :
  byte_sum (a ++ b) = byte_sum a + byte_sum b.
Proof.
  induction a as [|x a IH]; [reflexivity|].
  cbn [app byte_sum fold_right]. fold (byte_sum (a ++ b)). fold (byte_sum a).
  rewrite IH. lia.
Qed.

Lemma byte_sum_bound (s : list byte) :
  byte_sum s <= 255 * Z.of_nat (List.length s).
Proof.
  induction s as [|x s IH]; [cbn; lia|].
  cbn [byte_sum fold_right List.length]. fold (byte_sum s).
  pose proof (to_uint8_range x). lia.
Qed.

Lemma string_checksum32_value (context : YR_SCAN_CONTEXT) (cache : CACHE)
    (s : list byte) :
  fst (string_checksum32 context cache s) =
  return_integer (byte_sum s mod 2 ^ 32).
Proof. unfold string_checksum32, fst. now rewrite checksum_is_sum. Qed.

(** X2: the checksum of two strings put together is the sum of their
    checksums, reduced modulo 2^32. *)
Theorem X2_string_checksum32_concatenation (context : YR_SCAN_CONTEXT)
    (cache : CACHE) (a b : list byte) :
  exists ca cb,
    fst (string_checksum32 context cache a) = return_integer ca /\
    fst (string_checksum32 context cache b) = return_integer cb /\
    fst (string_checksum32 context cache (a ++ b)) =
      return_integer ((ca + cb) mod 2 ^ 32).
Proof.
  exists (byte_sum a mod 2 ^ 32), (byte_sum b mod 2 ^ 32).
  rewrite !string_checksum32_value, byte_sum_app.
  repeat split. f_equal. apply Zplus_mod.
Qed.

(** X3: the checksum does not see the order of the bytes: a string and any
    rearrangement of it have the same checksum. *)
Theorem X3_string_checksum32_rearranged (context : YR_SCAN_CONTEXT)
    (cache : CACHE) (s s' : list byte) :
  Permutation s s' ->
  string_checksum32 context cache s = string_checksum32 context cache s'.
Proof.
  intros Hp.
  assert (Hsum : byte_sum s = byte_sum s').
  { induction Hp as [|x l l' _ IH|x y l|l l' l'' _ IH1 _ IH2].
    - reflexivity.
    - cbn [byte_sum fold_right]. fold (byte_sum l). fold (byte_sum l').
      now rewrite IH.
    - cbn [byte_sum fold_right]. lia.
    - now rewrite IH1. }
  unfold string_checksum32. now rewrite !checksum_is_sum, Hsum.
Qed.

Lemma X3_string_checksum32_rearranged_witness :
  string_checksum32 one_block empty_cache (list_byte_of_string "ab") =
  string_checksum32 one_block empty_cache (list_byte_of_string "ba").
Proof.
  apply (X3_string_checksum32_rearranged one_block empty_cache).
  apply perm_swap.
Defined.

(** X4: on a string of at most 16843009 bytes the accumulator cannot wrap:
    the checksum is the plain sum of the byte values. *)
Theorem X4_string_checksum32_exact (context : YR_SCAN_CONTEXT) (cache : CACHE)
    (s : list byte) :
  Z.of_nat (List.length s) <= 16843009 ->
  fst (string_checksum32 context cache s) = return_integer (byte_sum s).
Proof.
  intros Hlen. rewrite string_checksum32_value. f_equal.
  apply Z.mod_small. pose proof (byte_sum_nonneg s).
  pose proof (byte_sum_bound s). lia.
Qed.

Lemma X4_string_checksum32_exact_witness :
  Z.of_nat (List.length (list_byte_of_string "abcd")) <= 16843009 /\
  fst (string_checksum32 one_block empty_cache (list_byte_of_string "abcd")) =
  return_integer 394.
Proof.
  split; [cbn; lia|].
  apply (X4_string_checksum32_exact one_block empty_cache
           (list_byte_of_string "abcd")).
  cbn. lia.
Defined.

(** ** The four data-range functions together *)

(** X5: on valid arguments that the cache does not answer, the four
    data-range functions settle on one byte sequence: either all four
    return undefined, or each returns what its literal-string form returns
    on the same bytes.  No order of the blocks is assumed. *)
Theorem X5_four_walks_agree (MD5 : HASH MD5_DIGEST_LENGTH)
    (SHA1 : HASH SHA_DIGEST_LENGTH) (SHA256 : HASH SHA256_DIGEST_LENGTH)
    (fp : char_ptr) (context : YR_SCAN_CONTEXT) (cache : CACHE)
    (offset length : Z) :
  valid_arguments (mem_block context) offset length = true ->
  cold cache offset length = true ->
  data_results MD5 SHA1 SHA256 fp context cache offset length =
    undefined_results \/
  exists m,
    data_results MD5 SHA1 SHA256 fp context cache offset length =
    string_results MD5 SHA1 SHA256 context cache m.
Proof.
  intros Hv Hc. rewrite data_results_cold by assumption.
  destruct (resolve_range (mem_block context) offset length) as [m|].
  - right. exists m. reflexivity.
  - left. reflexivity.
Qed.

Lemma X5_four_walks_agree_witness :
  valid_arguments (mem_block adjacent_blocks) 2 4 = true /\
  cold empty_cache 2 4 = true /\
  (data_results (pad_hash 16) (pad_hash 20) (pad_hash 32) 7 adjacent_blocks
     empty_cache 2 4 = undefined_results \/
   exists m,
     data_results (pad_hash 16) (pad_hash 20) (pad_hash 32) 7 adjacent_blocks
       empty_cache 2 4 =
     string_results (pad_hash 16) (pad_hash 20) (pad_hash 32) adjacent_blocks
       empty_cache m).
Proof.
  split; [reflexivity|]. split; [reflexivity|].
  exact (X5_four_walks_agree (pad_hash 16) (pad_hash 20) (pad_hash 32) 7
           adjacent_blocks empty_cache 2 4 eq_refl eq_refl).
Defined.

(** ** The cache entries *)

Ltac branches :=
  repeat match goal with
  | |- context [if ?c then _ else _] => destruct c
  | |- context [match ?x with _ => _ end] => destruct x
  end.

(** X6: each data-range function reads and writes the entry of its own
    algorithm only: its outcome and the entry it leaves are the same for
    two caches that agree on that entry, and the other three entries come
    back as they went in. *)
Theorem X6_one_entry_per_function (MD5 : HASH MD5_DIGEST_LENGTH)
    (SHA1 : HASH SHA_DIGEST_LENGTH) (SHA256 : HASH SHA256_DIGEST_LENGTH)
    (fp : char_ptr) (context : YR_SCAN_CONTEXT) (c1 c2 : CACHE)
    (offset length : Z) :
  (md5 c1 = md5 c2 ->
   fst (data_md5 MD5 fp context c1 offset length) =
     fst (data_md5 MD5 fp context c2 offset length) /\
   md5 (snd (data_md5 MD5 fp context c1 offset length)) =
     md5 (snd (data_md5 MD5 fp context c2 offset length))) /\
  (sha1 c1 = sha1 c2 ->
   fst (data_sha1 SHA1 fp context c1 offset length) =
     fst (data_sha1 SHA1 fp context c2 offset length) /\
   sha1 (snd (data_sha1 SHA1 fp context c1 offset length)) =
     sha1 (snd (data_sha1 SHA1 fp context c2 offset length))) /\
  (sha256 c1 = sha256 c2 ->
   fst (data_sha256 SHA256 fp context c1 offset length) =
     fst (data_sha256 SHA256 fp context c2 offset length) /\
   sha256 (snd (data_sha256 SHA256 fp context c1 offset length)) =
     sha256 (snd (data_sha256 SHA256 fp context c2 offset length))) /\
  (crc32 c1 = crc32 c2 ->
   fst (data_checksum32 context c1 offset length) =
     fst (data_checksum32 context c2 offset length) /\
   crc32 (snd (data_checksum32 context c1 offset length)) =
     crc32 (snd (data_checksum32 context c2 offset length))) /\
  (let c := snd (data_md5 MD5 fp context c1 offset length) in
   sha1 c = sha1 c1 /\ sha256 c = sha256 c1 /\ crc32 c = crc32 c1) /\
  (let c := snd (data_sha1 SHA1 fp context c1 offset length) in
   md5 c = md5 c1 /\ sha256 c = sha256 c1 /\ crc32 c = crc32 c1) /\
  (let c := snd (data_sha256 SHA256 fp context c1 offset length) in
   md5 c = md5 c1 /\ sha1 c = sha1 c1 /\ crc32 c = crc32 c1) /\
  (let c := snd (data_checksum32 context c1 offset length) in
   md5 c = md5 c1 /\ sha1 c = sha1 c1 /\ sha256 c = sha256 c1).
Proof.
  split; [|split; [|split; [|split; [|split; [|split; [|split]]]]]].
  - intros H. unfold data_md5. rewrite H.
    branches; cbn [fst snd md5 set_md5]; split;
      (reflexivity || exact H).
  - intros H. unfold data_sha1. rewrite H.
    branches; cbn [fst snd sha1 set_sha1]; split;
      (reflexivity || exact H).
  - intros H. unfold data_sha256. rewrite H.
    branches; cbn [fst snd sha256 set_sha256]; split;
      (reflexivity || exact H).
  - intros H. unfold data_checksum32. rewrite H.
    branches; cbn [fst snd crc32 set_crc32]; split;
      (reflexivity || exact H).
  - apply data_md5_frame.
  - apply data_sha1_frame.
  - apply data_sha256_frame.
  - apply data_checksum32_frame.
Qed.

Lemma X6_one_entry_per_function_witness :
  fst (data_checksum32 one_block empty_cache 0 4) =
  fst (data_checksum32 one_block
         (set_md5 empty_cache (store_hash 7 0 4)) 0 4).
Proof.
  exact (proj1 (proj1 (proj2 (proj2 (proj2
           (X6_one_entry_per_function (pad_hash 16) (pad_hash 20)
              (pad_hash 32) 7 one_block empty_cache
              (set_md5 empty_cache (store_hash 7 0 4)) 0 4)))) eq_refl)).
Defined.

(** X7: no call clears an entry: whatever is set in the cache before a
    data-range call, valid or not, hit or miss, is set after it. *)
Theorem X7_entries_stay_set (MD5 : HASH MD5_DIGEST_LENGTH)
    (SHA1 : HASH SHA_DIGEST_LENGTH) (SHA256 : HASH SHA256_DIGEST_LENGTH)
    (fp : char_ptr) (context : YR_SCAN_CONTEXT) (cache : CACHE)
    (offset length : Z) :
  set_entries_kept cache
    (snd (data_md5 MD5 fp context cache offset length)) = true /\
  set_entries_kept cache
    (snd (data_sha1 SHA1 fp context cache offset length)) = true /\
  set_entries_kept cache
    (snd (data_sha256 SHA256 fp context cache offset length)) = true /\
  set_entries_kept cache
    (snd (data_checksum32 context cache offset length)) = true.
Proof.
  assert (Himp : forall b, implb b b = true) by (intros []; reflexivity).
  assert (Hany : forall b, implb b true = true) by (intros []; reflexivity).
  unfold set_entries_kept.
  split; [|split; [|split]].
  - unfold data_md5. branches;
      cbn [snd md5 sha1 sha256 crc32 set_md5 hash_isSet];
      rewrite ?Himp, ?Hany; reflexivity.
  - unfold data_sha1. branches;
      cbn [snd md5 sha1 sha256 crc32 set_sha1 hash_isSet];
      rewrite ?Himp, ?Hany; reflexivity.
  - unfold data_sha256. branches;
      cbn [snd md5 sha1 sha256 crc32 set_sha256 hash_isSet];
      rewrite ?Himp, ?Hany; reflexivity.
  - unfold data_checksum32. branches;
      cbn [snd md5 sha1 sha256 crc32 set_crc32 sum_isSet];
      rewrite ?Himp, ?Hany; reflexivity.
Qed.

(** X8: a defined checksum32 is stored with its request: the same request
    asked again returns the same value and leaves the cache as it is,
    whatever blocks the scan context holds by then. *)
Theorem X8_checksum32_served_again (context context' : YR_SCAN_CONTEXT)
    (cache : CACHE) (offset length : Z) :
  valid_arguments (mem_block context) offset length = true ->
  valid_arguments (mem_block context') offset length = true ->
  sum_hit (crc32 cache) offset length = false ->
  defined (fst (data_checksum32 context cache offset length)) = true ->
  data_checksum32 context'
    (snd (data_checksum32 context cache offset length)) offset length =
  data_checksum32 context cache offset length.
Proof.
  intros Hv Hv' Hmiss Hdef.
  rewrite (data_checksum32_miss context cache offset length Hv Hmiss) in *.
  destruct (resolve_range (mem_block context) offset length) as [m|];
    [|discriminate Hdef].
  cbn [snd]. rewrite data_checksum32_hit; [reflexivity|exact Hv'|].
  apply sum_hit_exact. now repeat split.
Qed.

Lemma X8_checksum32_served_again_witness :
  valid_arguments (mem_block adjacent_blocks) 2 4 = true /\
  valid_arguments (mem_block one_block) 2 4 = true /\
  sum_hit (crc32 empty_cache) 2 4 = false /\
  defined (fst (data_checksum32 adjacent_blocks empty_cache 2 4)) = true /\
  data_checksum32 one_block
    (snd (data_checksum32 adjacent_blocks empty_cache 2 4)) 2 4 =
  data_checksum32 adjacent_blocks empty_cache 2 4.
Proof.
  do 4 (split; [reflexivity|]).
  exact (X8_checksum32_served_again adjacent_blocks one_block empty_cache 2 4
           eq_refl eq_refl eq_refl eq_refl).
Defined.

(** ** How much is digested *)

Lemma addresses_int64_cons (b : YR_MEMORY_BLOCK)
    (next : list YR_MEMORY_BLOCK) :
  addresses_int64 (b :: next) = true ->
  in_range_block b /\ addresses_int64 next = true.
Proof.
  unfold addresses_int64, in_range_block. cbn [forallb].
  rewrite !andb_true_iff, !Z.leb_le. tauto.
Qed.

Lemma block_bytes_length (b : YR_MEMORY_BLOCK) (data_offset data_len : Z) :
  0 <= data_len ->
  Z.of_nat (List.length (block_bytes b data_offset data_len)) <= data_len.
Proof.
  intros H. unfold block_bytes.
  pose proof (firstn_le_length (Z.to_nat data_len)
                (skipn (Z.to_nat data_offset) (data b))). lia.
Qed.

Lemma walk_length_bound (u : outcome) (blocks : list YR_MEMORY_BLOCK) :
  forall (s : locals (list byte)) (bound : Z),
  addresses_int64 blocks = true -> in_range_locals s ->
  Z.of_nat (List.length (l_context s)) + l_length s <= bound ->
  forall m, walk_value (walk (@app byte) u blocks s) = Some m ->
  Z.of_nat (List.length m) <= bound.
Proof.
  induction blocks as [|b next IH]; intros s bound Hblocks Hs Hsum m Hm.
  - cbn in Hm. destruct Hs as (_ & Hlen & _).
    destruct (l_past_first_block s); [|discriminate].
    injection Hm as <-. lia.
  - apply addresses_int64_cons in Hblocks. destruct Hblocks as [Hb Hnext].
    unfold walk in Hm. cbn [foreach_memory_block] in Hm.
    rewrite (range_body_in_range _ _ _ _ Hb Hs) in Hm.
    pose proof Hs as (Ho & Hl & Hmax).
    destruct (contains b (l_offset s)) eqn:Hc.
    + unfold contains in Hc. apply andb_true_iff in Hc.
      destruct Hc as [Hc1 Hc2]. apply Z.leb_le in Hc1. apply Z.ltb_lt in Hc2.
      set (d := Z.min (l_length s) (block_end b - l_offset s)).
      assert (Hd : 0 <= d <= l_length s) by (unfold d; lia).
      assert (Hs' : in_range_locals (consume (@app byte) b s)).
      { unfold in_range_locals, consume. cbn [l_offset l_length].
        fold d. lia. }
      assert (Hsum' : Z.of_nat (List.length
                        (l_context (consume (@app byte) b s))) +
                      l_length (consume (@app byte) b s) <= bound).
      { unfold consume. cbn [l_context l_length]. fold d.
        rewrite length_app.
        pose proof (block_bytes_length b (l_offset s - base b) d
                      ltac:(lia)). lia. }
      destruct (block_end b >? l_offset s + l_length s).
      * destruct Hs' as (_ & Hl' & _).
        unfold consume in Hm, Hl', Hsum'.
        cbn [walk_value l_past_first_block l_context l_length]
          in Hm, Hl', Hsum'.
        injection Hm as <-. lia.
      * exact (IH _ _ Hnext Hs' Hsum' m Hm).
    + destruct (l_past_first_block s) eqn:Hp; [discriminate Hm|].
      destruct (block_end b >? l_offset s + l_length s).
      * cbn [walk_value] in Hm. rewrite Hp in Hm. discriminate Hm.
      * exact (IH _ _ Hnext Hs Hsum m Hm).
Qed.

(** X9: on valid arguments that the cache does not answer, a data-range
    function never digests more bytes than the request asks for: on
    blocks with int64 addresses, in whatever order, a result that is not
    undefined is the digest of at most [length] bytes. *)
Theorem X9_at_most_length_bytes (MD5 : HASH MD5_DIGEST_LENGTH)
    (SHA1 : HASH SHA_DIGEST_LENGTH) (SHA256 : HASH SHA256_DIGEST_LENGTH)
    (fp : char_ptr) (context : YR_SCAN_CONTEXT) (cache : CACHE)
    (offset length : Z) :
  addresses_int64 (mem_block context) = true ->
  valid_arguments (mem_block context) offset length = true ->
  offset + length <= INT64_MAX ->
  cold cache offset length = true ->
  data_results MD5 SHA1 SHA256 fp context cache offset length =
    undefined_results \/
  exists m,
    Z.of_nat (List.length m) <= length /\
    data_results MD5 SHA1 SHA256 fp context cache offset length =
    string_results MD5 SHA1 SHA256 context cache m.
Proof.
  intros Hblocks Hv Hmax Hc. rewrite data_results_cold by assumption.
  destruct (resolve_range (mem_block context) offset length) as [m|] eqn:Hr;
    [right|left; reflexivity].
  exists m. split; [|reflexivity].
  unfold resolve_range in Hr.
  apply (walk_length_bound return_string_UNDEFINED (mem_block context)
           (start offset length []) length Hblocks)
    with (m := m); [|cbn; lia|exact Hr].
  unfold in_range_locals, start. cbn [l_offset l_length].
  unfold valid_arguments in Hv. rewrite !andb_true_iff, !Z.leb_le in Hv. lia.
Qed.

Lemma X9_at_most_length_bytes_witness :
  addresses_int64 (mem_block distant_blocks) = true /\
  valid_arguments (mem_block distant_blocks) 1 2 = true /\
  1 + 2 <= INT64_MAX /\
  cold empty_cache 1 2 = true /\
  (data_results (pad_hash 16) (pad_hash 20) (pad_hash 32) 7 distant_blocks
     empty_cache 1 2 = undefined_results \/
   exists m,
     Z.of_nat (List.length m) <= 2 /\
     data_results (pad_hash 16) (pad_hash 20) (pad_hash 32) 7 distant_blocks
       empty_cache 1 2 =
     string_results (pad_hash 16) (pad_hash 20) (pad_hash 32) distant_blocks
       empty_cache m).
Proof.
  split; [reflexivity|]. split; [reflexivity|].
  split; [unfold INT64_MAX; lia|]. split; [reflexivity|].
  refine (X9_at_most_length_bytes (pad_hash 16) (pad_hash 20) (pad_hash 32) 7
            distant_blocks empty_cache 1 2 eq_refl eq_refl _ eq_refl).
  unfold INT64_MAX. lia.
Defined.

(** ** One block: scanning a file *)

Lemma resolve_single (b : YR_MEMORY_BLOCK) (offset length : Z) :
  resolve [b] offset length =
  if contains b offset
  then Some (block_bytes b (offset - base b)
               (Z.min length (block_end b - offset)))
  else None.
Proof.
  unfold resolve, reaches_gap, range_bytes.
  cbn [covered existsb gaps gaps_after flat_map].
  rewrite orb_false_r, app_nil_r.
  destruct (contains b offset) eqn:Hc; [|reflexivity].
  cbn [andb negb]. unfold contains in Hc. apply andb_true_iff in Hc.
  destruct Hc as [Hc _]. apply Z.leb_le in Hc.
  unfold block_range. rewrite (Z.max_l offset (base b)) by lia.
  do 2 f_equal. lia.
Qed.

(** X10: when the scan context holds a single block, as it does for a
    file, and the cache does not answer the request, a request that starts
    in the block is answered with the digest of the bytes from [offset]
    on, [length] of them or as many as the block has left; a request that
    starts at or after the end of the block is undefined. *)
Theorem X10_single_block (MD5 : HASH MD5_DIGEST_LENGTH)
    (SHA1 : HASH SHA_DIGEST_LENGTH) (SHA256 : HASH SHA256_DIGEST_LENGTH)
    (fp : char_ptr) (context : YR_SCAN_CONTEXT) (cache : CACHE)
    (b : YR_MEMORY_BLOCK) (offset length : Z) :
  mem_block context = [b] ->
  well_formed [b] = true ->
  valid_arguments [b] offset length = true ->
  offset + length <= INT64_MAX ->
  cold cache offset length = true ->
  data_results MD5 SHA1 SHA256 fp context cache offset length =
    if offset <? block_end b
    then string_results MD5 SHA1 SHA256 context cache
           (block_bytes b (offset - base b)
              (Z.min length (block_end b - offset)))
    else undefined_results.
Proof.
  intros Hctx Hwf Hv Hmax Hc.
  rewrite data_results_ascending by (rewrite ?Hctx; assumption).
  rewrite Hctx, resolve_single. unfold contains.
  unfold valid_arguments in Hv. rewrite !andb_true_iff in Hv.
  destruct Hv as (_ & Hbase). rewrite Hbase. cbn [andb].
  destruct (offset <? block_end b); reflexivity.
Qed.

Lemma X10_single_block_witness :
  mem_block one_block = [block_of "abcd" 0] /\
  well_formed [block_of "abcd" 0] = true /\
  valid_arguments [block_of "abcd" 0] 1 20 = true /\
  1 + 20 <= INT64_MAX /\
  cold empty_cache 1 20 = true /\
  data_results (pad_hash 16) (pad_hash 20) (pad_hash 32) 7 one_block
    empty_cache 1 20 =
  string_results (pad_hash 16) (pad_hash 20) (pad_hash 32) one_block
    empty_cache (list_byte_of_string "bcd").
Proof.
  split; [reflexivity|]. split; [reflexivity|]. split; [reflexivity|].
  split; [unfold INT64_MAX; lia|]. split; [reflexivity|].
  refine (X10_single_block (pad_hash 16) (pad_hash 20) (pad_hash 32) 7
            one_block empty_cache (block_of "abcd" 0) 1 20
            eq_refl eq_refl eq_refl _ eq_refl).
  unfold INT64_MAX. lia.
Defined.

(** X11: over a single, non-empty block the request (base, size), when
    the cache does not answer it, gives what the literal-string forms give
    on the bytes of the block: hashing the whole file by range or as a
    string is the same. *)
Theorem X11_whole_block_as_string (MD5 : HASH MD5_DIGEST_LENGTH)
    (SHA1 : HASH SHA_DIGEST_LENGTH) (SHA256 : HASH SHA256_DIGEST_LENGTH)
    (fp : char_ptr) (context : YR_SCAN_CONTEXT) (cache : CACHE)
    (b : YR_MEMORY_BLOCK) :
  mem_block context = [b] ->
  well_formed [b] = true ->
  0 < size b ->
  cold cache (base b) (size b) = true ->
  data_results MD5 SHA1 SHA256 fp context cache (base b) (size b) =
  string_results MD5 SHA1 SHA256 context cache (data b).
Proof.
  intros Hctx Hwf Hsize Hc.
  pose proof (ascending_from_cons 0 b [] Hwf) as (H1 & H2 & H3 & H4 & _).
  assert (Hv : valid_arguments [b] (base b) (size b) = true).
  { unfold valid_arguments. rewrite !andb_true_iff, !Z.leb_le. lia. }
  rewrite data_results_ascending
    by (rewrite ?Hctx; assumption || (unfold block_end in H4; lia)).
  rewrite Hctx, resolve_single. unfold contains, block_end.
  replace (base b <=? base b) with true by (symmetry; apply Z.leb_le; lia).
  replace (base b <? base b + size b) with true
    by (symmetry; apply Z.ltb_lt; lia).
  cbn [andb]. f_equal. unfold block_bytes.
  replace (Z.to_nat (base b - base b)) with 0%nat by lia.
  replace (Z.to_nat (Z.min (size b) (base b + size b - base b)))
    with (List.length (data b)) by lia.
  cbn [skipn]. apply firstn_all.
Qed.

Lemma X11_whole_block_as_string_witness :
  mem_block one_block = [block_of "abcd" 0] /\
  well_formed [block_of "abcd" 0] = true /\
  0 < size (block_of "abcd" 0) /\
  cold empty_cache 0 4 = true /\
  data_results (pad_hash 16) (pad_hash 20) (pad_hash 32) 7 one_block
    empty_cache 0 4 =
  string_results (pad_hash 16) (pad_hash 20) (pad_hash 32) one_block
    empty_cache (list_byte_of_string "abcd").
Proof.
  split; [reflexivity|]. split; [reflexivity|]. split; [cbn; lia|].
  split; [reflexivity|].
  refine (X11_whole_block_as_string (pad_hash 16) (pad_hash 20) (pad_hash 32)
            7 one_block empty_cache (block_of "abcd" 0)
            eq_refl eq_refl _ eq_refl).
  cbn. lia.
Defined.

(** ** A range inside one block of many *)

Lemma ascending_from_In (blocks : list YR_MEMORY_BLOCK) :
  forall e b, ascending_from e blocks = true -> In b blocks ->
  e <= base b /\ 0 <= size b /\ block_end b <= INT64_MAX.
Proof.
  induction blocks as [|b' next IH]; intros e b Hasc Hin; [destruct Hin|].
  apply ascending_from_cons in Hasc.
  destruct Hasc as (H1 & H2 & _ & H4 & H5).
  destruct Hin as [<-|Hin]; [now repeat split|].
  destruct (IH _ _ H5 Hin) as (H6 & H7 & H8).
  unfold block_end in H6. repeat split; try assumption. lia.
Qed.

Lemma resolve_skip (lo : Z) (b : YR_MEMORY_BLOCK)
    (next : list YR_MEMORY_BLOCK) (offset length : Z) :
  ascending_from lo (b :: next) = true -> block_end b <= offset ->
  resolve (b :: next) offset length = resolve next offset length.
Proof.
  intros Hasc Hpast.
  apply ascending_from_cons in Hasc.
  destruct Hasc as (H1 & H2 & _ & _ & H5).
  unfold resolve, reaches_gap, range_bytes.
  cbn [covered existsb gaps flat_map]. fold (covered next offset).
  replace (contains b offset) with false.
  2:{ symmetry. unfold contains. apply andb_false_iff. right.
      apply Z.ltb_ge. exact Hpast. }
  replace (block_range b offset (offset + length)) with (@nil byte).
  2:{ unfold block_range. rewrite block_bytes_none by lia. reflexivity. }
  cbn [orb app].
  replace (existsb _ (gaps_after (block_end b) next))
    with (existsb (fun e => (offset <? e) && (e <=? offset + length))
            (gaps next)); [reflexivity|].
  destruct next as [|b2 rest]; [reflexivity|].
  cbn [gaps gaps_after]. rewrite existsb_app.
  destruct (contains b2 (block_end b)); [reflexivity|].
  cbn [existsb].
  replace (offset <? block_end b) with false
    by (symmetry; apply Z.ltb_ge; lia).
  reflexivity.
Qed.

Lemma resolve_first (lo : Z) (b : YR_MEMORY_BLOCK)
    (next : list YR_MEMORY_BLOCK) (offset length : Z) :
  ascending_from lo (b :: next) = true ->
  contains b offset = true -> offset + length < block_end b ->
  resolve (b :: next) offset length =
  Some (block_bytes b (offset - base b) length).
Proof.
  intros Hasc Hc Hin.
  apply ascending_from_cons in Hasc.
  destruct Hasc as (H1 & H2 & _ & _ & H5).
  unfold resolve, reaches_gap, range_bytes.
  cbn [covered existsb gaps flat_map]. rewrite Hc. cbn [orb andb].
  replace (existsb _ (gaps_after (block_end b) next)) with false.
  2:{ symmetry. apply not_true_is_false. intros Hex.
      apply existsb_exists in Hex. destruct Hex as (x & Hx & Hp).
      apply andb_true_iff in Hp. destruct Hp as [_ Hp].
      apply Z.leb_le in Hp.
      pose proof (gaps_after_lower _ _ _ H5 Hx). lia. }
  rewrite (range_bytes_beyond next (block_end b)) by (assumption || lia).
  rewrite app_nil_r. cbn [negb].
  unfold contains in Hc. apply andb_true_iff in Hc.
  destruct Hc as [Hc _]. apply Z.leb_le in Hc.
  unfold block_range. rewrite (Z.max_l offset (base b)) by lia.
  do 2 f_equal. lia.
Qed.

Lemma resolve_inside (blocks : list YR_MEMORY_BLOCK) :
  forall lo b offset length,
  ascending_from lo blocks = true -> In b blocks ->
  contains b offset = true -> offset + length < block_end b ->
  resolve blocks offset length =
  Some (block_bytes b (offset - base b) length).
Proof.
  induction blocks as [|b' next IH]; intros lo b offset length Hasc Hb Hc Hin;
    [destruct Hb|].
  destruct Hb as [->|Hb]; [exact (resolve_first lo _ _ _ _ Hasc Hc Hin)|].
  pose proof (ascending_from_cons _ _ _ Hasc) as (_ & _ & _ & _ & H5).
  destruct (ascending_from_In _ _ _ H5 Hb) as (Hlow & _ & _).
  assert (Hpast : block_end b' <= offset).
  { unfold contains in Hc. apply andb_true_iff in Hc.
    destruct Hc as [Hc _]. apply Z.leb_le in Hc. lia. }
  rewrite (resolve_skip lo b' next offset length Hasc Hpast).
  exact (IH _ _ _ _ H5 Hb Hc Hin).
Qed.

(** X12: over ascending blocks, a request that the cache does not answer,
    that starts in a block and ends before the end of that block, is
    answered with the digest of exactly that slice of the block, whatever
    blocks come before and after. *)
Theorem X12_range_inside_a_block (MD5 : HASH MD5_DIGEST_LENGTH)
    (SHA1 : HASH SHA_DIGEST_LENGTH) (SHA256 : HASH SHA256_DIGEST_LENGTH)
    (fp : char_ptr) (context : YR_SCAN_CONTEXT) (cache : CACHE)
    (b : YR_MEMORY_BLOCK) (offset length : Z) :
  well_formed (mem_block context) = true ->
  valid_arguments (mem_block context) offset length = true ->
  In b (mem_block context) ->
  contains b offset = true ->
  offset + length < block_end b ->
  cold cache offset length = true ->
  data_results MD5 SHA1 SHA256 fp context cache offset length =
  string_results MD5 SHA1 SHA256 context cache
    (block_bytes b (offset - base b) length).
Proof.
  intros Hwf Hv Hb Hc Hin Hcold.
  destruct (ascending_from_In _ _ _ Hwf Hb) as (_ & _ & Hmax).
  rewrite data_results_ascending by (assumption || lia).
  rewrite (resolve_inside _ 0 b offset length Hwf Hb Hc Hin).
  reflexivity.
Qed.

Lemma X12_range_inside_a_block_witness :
  well_formed (mem_block distant_blocks) = true /\
  valid_arguments (mem_block distant_blocks) 11 2 = true /\
  In (block_of "efgh" 10) (mem_block distant_blocks) /\
  contains (block_of "efgh" 10) 11 = true /\
  11 + 2 < block_end (block_of "efgh" 10) /\
  cold empty_cache 11 2 = true /\
  data_results (pad_hash 16) (pad_hash 20) (pad_hash 32) 7 distant_blocks
    empty_cache 11 2 =
  string_results (pad_hash 16) (pad_hash 20) (pad_hash 32) distant_blocks
    empty_cache (list_byte_of_string "fg").
Proof.
  split; [reflexivity|]. split; [reflexivity|].
  split; [right; left; reflexivity|]. split; [reflexivity|].
  split; [cbn; lia|]. split; [reflexivity|].
  refine (X12_range_inside_a_block (pad_hash 16) (pad_hash 20) (pad_hash 32)
            7 distant_blocks empty_cache (block_of "efgh" 10) 11 2
            eq_refl eq_refl (or_intror (or_introl eq_refl)) eq_refl _
            eq_refl).
  cbn. lia.
Defined.

(** ** A block cut in two *)

Section Split.

Variables b1 b2 : YR_MEMORY_BLOCK.
Hypothesis adjacent : base b2 = block_end b1.
Hypothesis size1 : 0 < size b1.
Hypothesis size2 : 0 < size b2.

Lemma contains_merge (a : Z) :
  contains (merge_blocks b1 b2) a = contains b1 a || contains b2 a.
Proof.
  unfold contains, merge_blocks, block_end in *. cbn [base size].
  rewrite adjacent.
  destruct (Z.leb_spec (base b1) a), (Z.ltb_spec a (base b1 + size b1)),
    (Z.leb_spec (base b1 + size b1) a),
    (Z.ltb_spec a (base b1 + (size b1 + size b2))),
    (Z.ltb_spec a (base b1 + size b1 + size b2));
    cbn; reflexivity || lia.
Qed.

Lemma block_end_merge : block_end (merge_blocks b1 b2) = block_end b2.
Proof.
  unfold block_end, merge_blocks in *. cbn [base size]. lia.
Qed.

Lemma covered_split (pre post : list YR_MEMORY_BLOCK) (a : Z) :
  covered (pre ++ b1 :: b2 :: post) a =
  covered (pre ++ merge_blocks b1 b2 :: post) a.
Proof.
  unfold covered. rewrite !existsb_app. cbn [existsb].
  rewrite contains_merge, <- !orb_assoc. reflexivity.
Qed.

Lemma gaps_after_split (pre post : list YR_MEMORY_BLOCK) :
  forall e, ascending_from e (pre ++ b1 :: b2 :: post) = true ->
  gaps_after e (pre ++ b1 :: b2 :: post) =
  gaps_after e (pre ++ merge_blocks b1 b2 :: post).
Proof.
  induction pre as [|p pre IH]; intros e Hasc.
  - cbn [app gaps_after] in *.
    apply ascending_from_cons in Hasc. destruct Hasc as (H1 & _).
    rewrite block_end_merge, contains_merge.
    replace (contains b2 (block_end b1)) with true.
    2:{ symmetry. unfold contains, block_end in *.
        apply andb_true_iff. split; [apply Z.leb_le|apply Z.ltb_lt]; lia. }
    replace (contains b2 e) with false.
    2:{ symmetry. unfold contains, block_end in *.
        apply andb_false_iff. left. apply Z.leb_gt. lia. }
    rewrite orb_false_r. reflexivity.
  - cbn [app gaps_after] in *.
    apply ascending_from_cons in Hasc. destruct Hasc as (_ & _ & _ & _ & H5).
    rewrite (IH _ H5). reflexivity.
Qed.

Lemma gaps_split (pre post : list YR_MEMORY_BLOCK) (lo : Z) :
  ascending_from lo (pre ++ b1 :: b2 :: post) = true ->
  gaps (pre ++ b1 :: b2 :: post) =
  gaps (pre ++ merge_blocks b1 b2 :: post).
Proof.
  intros Hasc. destruct pre as [|p pre].
  - cbn [app gaps gaps_after].
    rewrite block_end_merge.
    replace (contains b2 (block_end b1)) with true; [reflexivity|].
    symmetry. unfold contains, block_end in *.
    apply andb_true_iff. split; [apply Z.leb_le|apply Z.ltb_lt]; lia.
  - cbn [app gaps] in *.
    apply ascending_from_cons in Hasc. destruct Hasc as (_ & _ & _ & _ & H5).
    exact (gaps_after_split pre post _ H5).
Qed.

Lemma firstn_enough {A : Type} (k k' : nat) (l : list A) :
  k = k' \/ (List.length l <= k /\ List.length l <= k')%nat ->
  firstn k l = firstn k' l.
Proof.
  intros [->|[H H']]; [reflexivity|].
  now rewrite !firstn_all2.
Qed.

Lemma block_range_merge (lo hi : Z) :
  Z.of_nat (List.length (data b1)) = size b1 ->
  block_range b1 lo hi ++ block_range b2 lo hi =
  block_range (merge_blocks b1 b2) lo hi.
Proof.
  intros Hlen.
  unfold block_range, block_bytes, merge_blocks, block_end in *.
  cbn [base size data]. rewrite adjacent.
  rewrite skipn_app, firstn_app, length_skipn.
  f_equal.
  - apply firstn_enough. rewrite length_skipn. lia.
  - f_equal; [lia|f_equal; lia].
Qed.

Lemma range_bytes_split (pre post : list YR_MEMORY_BLOCK) (offset length : Z) :
  Z.of_nat (List.length (data b1)) = size b1 ->
  range_bytes (pre ++ b1 :: b2 :: post) offset length =
  range_bytes (pre ++ merge_blocks b1 b2 :: post) offset length.
Proof.
  intros Hlen. unfold range_bytes. rewrite !flat_map_app.
  cbn [flat_map]. f_equal.
  rewrite app_assoc, block_range_merge by exact Hlen.
  reflexivity.
Qed.

Lemma ascending_from_split (pre post : list YR_MEMORY_BLOCK) :
  forall e, ascending_from e (pre ++ b1 :: b2 :: post) = true ->
  ascending_from e (pre ++ merge_blocks b1 b2 :: post) = true /\
  Z.of_nat (List.length (data b1)) = size b1.
Proof.
  induction pre as [|p pre IH]; intros e Hasc.
  - cbn [app] in *.
    apply ascending_from_cons in Hasc.
    destruct Hasc as (H1 & H2 & H3 & H4 & H5).
    apply ascending_from_cons in H5.
    destruct H5 as (H6 & H7 & H8 & H9 & H10).
    split; [|exact H3].
    cbn [ascending_from]. rewrite block_end_merge, H10.
    unfold merge_blocks. cbn [base size data]. rewrite length_app.
    rewrite !andb_true_iff, !Z.leb_le, Z.eqb_eq.
    repeat split; lia.
  - cbn [app] in *.
    apply ascending_from_cons in Hasc.
    destruct Hasc as (H1 & H2 & H3 & H4 & H5).
    destruct (IH _ H5) as [IH1 IH2]. split; [|exact IH2].
    cbn [ascending_from]. rewrite IH1.
    rewrite !andb_true_iff, !Z.leb_le, Z.eqb_eq. repeat split; lia.
Qed.

Lemma resolve_split (pre post : list YR_MEMORY_BLOCK) (offset length : Z) :
  well_formed (pre ++ b1 :: b2 :: post) = true ->
  resolve (pre ++ b1 :: b2 :: post) offset length =
  resolve (pre ++ merge_blocks b1 b2 :: post) offset length.
Proof.
  intros Hwf. destruct (ascending_from_split pre post 0 Hwf) as [_ Hlen].
  unfold resolve, reaches_gap.
  rewrite covered_split, (gaps_split pre post 0 Hwf),
    (range_bytes_split pre post offset length Hlen).
  reflexivity.
Qed.

Lemma valid_arguments_split (pre post : list YR_MEMORY_BLOCK)
    (offset length : Z) :
  valid_arguments (pre ++ b1 :: b2 :: post) offset length =
  valid_arguments (pre ++ merge_blocks b1 b2 :: post) offset length.
Proof. destruct pre; reflexivity. Qed.

End Split.

(** X13: the blocks are read as one stream of bytes: over ascending blocks,
    replacing two adjacent non-empty blocks by the single block that holds
    the bytes of both changes the result of no request. *)
Theorem X13_adjacent_blocks_as_one (MD5 : HASH MD5_DIGEST_LENGTH)
    (SHA1 : HASH SHA_DIGEST_LENGTH) (SHA256 : HASH SHA256_DIGEST_LENGTH)
    (fp : char_ptr) (context context' : YR_SCAN_CONTEXT) (cache : CACHE)
    (pre post : list YR_MEMORY_BLOCK) (b1 b2 : YR_MEMORY_BLOCK)
    (offset length : Z) :
  mem_block context = pre ++ b1 :: b2 :: post ->
  mem_block context' = pre ++ merge_blocks b1 b2 :: post ->
  well_formed (mem_block context) = true ->
  base b2 = block_end b1 -> 0 < size b1 -> 0 < size b2 ->
  valid_arguments (mem_block context) offset length = true ->
  offset + length <= INT64_MAX ->
  cold cache offset length = true ->
  data_results MD5 SHA1 SHA256 fp context cache offset length =
  data_results MD5 SHA1 SHA256 fp context' cache offset length.
Proof.
  intros Hctx Hctx' Hwf Hadj Hs1 Hs2 Hv Hmax Hc.
  rewrite Hctx in Hwf, Hv.
  destruct (ascending_from_split b1 b2 Hadj Hs1 Hs2 pre post 0 Hwf)
    as [Hwf' _].
  rewrite (data_results_ascending MD5 SHA1 SHA256 fp context)
    by (rewrite ?Hctx; assumption).
  rewrite (data_results_ascending MD5 SHA1 SHA256 fp context')
    by (rewrite ?Hctx', <- ?valid_arguments_split; assumption).
  rewrite Hctx, Hctx', (resolve_split b1 b2 Hadj Hs1 Hs2 pre post) by exact Hwf.
  destruct (resolve _ _ _); reflexivity.
Qed.

Lemma X13_adjacent_blocks_as_one_witness :
  data_results (pad_hash 16) (pad_hash 20) (pad_hash 32) 7 adjacent_blocks
    empty_cache 2 4 =
  data_results (pad_hash 16) (pad_hash 20) (pad_hash 32) 7
    {| mem_block := [merge_blocks (block_of "abcd" 0) (block_of "efgh" 4)] |}
    empty_cache 2 4.
Proof.
  refine (X13_adjacent_blocks_as_one (pad_hash 16) (pad_hash 20) (pad_hash 32)
            7 adjacent_blocks
            {| mem_block :=
                 [merge_blocks (block_of "abcd" 0) (block_of "efgh" 4)] |}
            empty_cache [] [] (block_of "abcd" 0) (block_of "efgh" 4) 2 4
            eq_refl eq_refl eq_refl eq_refl _ _ eq_refl _ eq_refl).
  - cbn. lia.
  - cbn. lia.
  - unfold INT64_MAX. lia.
Defined.

(** ** Blocks moved *)

Lemma contains_shift (d : Z) (b : YR_MEMORY_BLOCK) (a : Z) :
  contains (shift_block d b) (a + d) = contains b a.
Proof.
  unfold contains, shift_block, block_end. cbn [base size].
  destruct (Z.leb_spec (base b + d) (a + d)), (Z.leb_spec (base b) a),
    (Z.ltb_spec (a + d) (base b + d + size b)),
    (Z.ltb_spec a (base b + size b)); cbn; reflexivity || lia.
Qed.

Lemma block_end_shift (d : Z) (b : YR_MEMORY_BLOCK) :
  block_end (shift_block d b) = block_end b + d.
Proof. unfold block_end, shift_block. cbn [base size]. lia. Qed.

Lemma gaps_after_shift (d : Z) (blocks : list YR_MEMORY_BLOCK) :
  forall e,
  gaps_after (e + d) (map (shift_block d) blocks) =
  map (fun x => x + d) (gaps_after e blocks).
Proof.
  induction blocks as [|b next IH]; intros e; [reflexivity|].
  cbn [map gaps_after].
  rewrite contains_shift, block_end_shift, IH, map_app.
  destruct (contains b e); reflexivity.
Qed.

Lemma existsb_map {A B : Type} (f : B -> bool) (g : A -> B) (l : list A) :
  existsb f (map g l) = existsb (fun x => f (g x)) l.
Proof.
  induction l as [|a l IH]; [reflexivity|]. cbn. now rewrite IH.
Qed.

Lemma resolve_shift (d : Z) (blocks : list YR_MEMORY_BLOCK)
    (offset length : Z) :
  resolve (map (shift_block d) blocks) (offset + d) length =
  resolve blocks offset length.
Proof.
  unfold resolve, covered, reaches_gap, range_bytes.
  rewrite existsb_map.
  rewrite (existsb_agree _ (fun b => contains b offset))
    by (intros; apply contains_shift).
  replace (gaps (map (shift_block d) blocks))
    with (map (fun x => x + d) (gaps blocks)).
  2:{ destruct blocks as [|b next]; [reflexivity|].
      cbn [map gaps]. now rewrite block_end_shift, gaps_after_shift. }
  rewrite existsb_map.
  rewrite (existsb_agree _
             (fun e => (offset <? e) && (e <=? offset + length))).
  2:{ intros x _.
      destruct (Z.ltb_spec (offset + d) (x + d)), (Z.ltb_spec offset x),
        (Z.leb_spec (x + d) (offset + d + length)),
        (Z.leb_spec x (offset + length)); cbn; reflexivity || lia. }
  replace (flat_map (fun b => block_range b (offset + d) (offset + d + length))
             (map (shift_block d) blocks))
    with (flat_map (fun b => block_range b offset (offset + length)) blocks);
    [reflexivity|].
  induction blocks as [|b next IH]; [reflexivity|].
  cbn [map flat_map]. rewrite IH. f_equal.
  unfold block_range, block_bytes. rewrite block_end_shift.
  unfold shift_block. cbn [base data]. f_equal; [lia|f_equal; lia].
Qed.

(** X14: only the place of the request relative to the blocks counts: over
    ascending blocks, moving every block and the offset by the same
    distance leaves the four results as they were, provided the cache
    answers neither the request nor the moved one. *)
Theorem X14_blocks_moved (MD5 : HASH MD5_DIGEST_LENGTH)
    (SHA1 : HASH SHA_DIGEST_LENGTH) (SHA256 : HASH SHA256_DIGEST_LENGTH)
    (fp : char_ptr) (context context' : YR_SCAN_CONTEXT) (cache : CACHE)
    (d offset length : Z) :
  mem_block context' = map (shift_block d) (mem_block context) ->
  well_formed (mem_block context) = true ->
  well_formed (mem_block context') = true ->
  valid_arguments (mem_block context) offset length = true ->
  0 <= offset + d ->
  offset + length <= INT64_MAX -> offset + d + length <= INT64_MAX ->
  cold cache offset length = true ->
  cold cache (offset + d) length = true ->
  data_results MD5 SHA1 SHA256 fp context' cache (offset + d) length =
  data_results MD5 SHA1 SHA256 fp context cache offset length.
Proof.
  intros Hctx Hwf Hwf' Hv Ho Hmax Hmax' Hc Hc'.
  assert (Hv' : valid_arguments (mem_block context') (offset + d) length
                = true).
  { rewrite Hctx. unfold valid_arguments in *.
    destruct (mem_block context) as [|first next];
      [now rewrite andb_false_r in Hv|].
    cbn [map shift_block base].
    rewrite !andb_true_iff, !Z.leb_le in *. lia. }
  rewrite (data_results_ascending MD5 SHA1 SHA256 fp context')
    by assumption.
  rewrite (data_results_ascending MD5 SHA1 SHA256 fp context)
    by assumption.
  rewrite Hctx, resolve_shift.
  destruct (resolve _ _ _); reflexivity.
Qed.

Lemma X14_blocks_moved_witness :
  data_results (pad_hash 16) (pad_hash 20) (pad_hash 32) 7
    {| mem_block := map (shift_block 100) (mem_block adjacent_blocks) |}
    empty_cache (2 + 100) 4 =
  data_results (pad_hash 16) (pad_hash 20) (pad_hash 32) 7 adjacent_blocks
    empty_cache 2 4.
Proof.
  refine (X14_blocks_moved (pad_hash 16) (pad_hash 20) (pad_hash 32) 7
            adjacent_blocks
            {| mem_block := map (shift_block 100) (mem_block adjacent_blocks) |}
            empty_cache 100 2 4 eq_refl eq_refl eq_refl eq_refl _ _ _
            eq_refl eq_refl); unfold INT64_MAX; lia.
Defined.

(** ** What a data-range result looks like *)

(** X15: on valid arguments that the cache does not answer, a data-range
    hash is either undefined or a text of 32 (MD5), 40 (SHA-1) or 64
    (SHA-256) lowercase hexadecimal characters, and a data-range checksum32
    is either the constant UNDEFINED or a number from 0 to 2^32 - 1, which
    that constant is not. *)
Theorem X15_shape_of_data_results (MD5 : HASH MD5_DIGEST_LENGTH)
    (SHA1 : HASH SHA_DIGEST_LENGTH) (SHA256 : HASH SHA256_DIGEST_LENGTH)
    (fp : char_ptr) (context : YR_SCAN_CONTEXT) (cache : CACHE)
    (offset length : Z) :
  valid_arguments (mem_block context) offset length = true ->
  cold cache offset length = true ->
  (fst (data_md5 MD5 fp context cache offset length) =
     return_string_UNDEFINED \/
   exists t, fst (data_md5 MD5 fp context cache offset length) =
               return_string t /\
             String.length t = 32%nat /\ lowercase_hex t) /\
  (fst (data_sha1 SHA1 fp context cache offset length) =
     return_string_UNDEFINED \/
   exists t, fst (data_sha1 SHA1 fp context cache offset length) =
               return_string t /\
             String.length t = 40%nat /\ lowercase_hex t) /\
  (fst (data_sha256 SHA256 fp context cache offset length) =
     return_string_UNDEFINED \/
   exists t, fst (data_sha256 SHA256 fp context cache offset length) =
               return_string t /\
             String.length t = 64%nat /\ lowercase_hex t) /\
  (fst (data_checksum32 context cache offset length) =
     return_integer UNDEFINED \/
   exists v, fst (data_checksum32 context cache offset length) =
               return_integer v /\
             0 <= v < 2 ^ 32 /\ v <> UNDEFINED).
Proof.
  intros Hv Hc. apply cold_inv in Hc. destruct Hc as (H1 & H2 & H3 & H4).
  rewrite (data_md5_miss MD5 fp context cache offset length Hv H1).
  rewrite (data_sha1_miss SHA1 fp context cache offset length Hv H2).
  rewrite (data_sha256_miss SHA256 fp context cache offset length Hv H3).
  rewrite (data_checksum32_miss context cache offset length Hv H4).
  destruct (resolve_range (mem_block context) offset length) as [m|];
    cbn [fst]; [|repeat split; left; reflexivity].
  split; [|split; [|split]]; right.
  - eexists. split; [reflexivity|]. split.
    + exact (digest_to_ascii_length _ _ (digest_of_length MD5 m)).
    + apply digest_to_ascii_hex.
  - eexists. split; [reflexivity|]. split.
    + exact (digest_to_ascii_length _ _ (digest_of_length SHA1 m)).
    + apply digest_to_ascii_hex.
  - eexists. split; [reflexivity|]. split.
    + exact (digest_to_ascii_length _ _ (digest_of_length SHA256 m)).
    + apply digest_to_ascii_hex.
  - eexists. split; [reflexivity|].
    rewrite checksum_is_sum.
    pose proof (Z.mod_pos_bound (byte_sum m) (2 ^ 32) ltac:(lia)) as Hb.
    split; [exact Hb|]. unfold UNDEFINED. lia.
Qed.

Lemma X15_shape_of_data_results_witness :
  valid_arguments (mem_block adjacent_blocks) 2 4 = true /\
  cold empty_cache 2 4 = true /\
  (fst (data_checksum32 adjacent_blocks empty_cache 2 4) =
     return_integer UNDEFINED \/
   exists v, fst (data_checksum32 adjacent_blocks empty_cache 2 4) =
               return_integer v /\
             0 <= v < 2 ^ 32 /\ v <> UNDEFINED).
Proof.
  split; [reflexivity|]. split; [reflexivity|].
  exact (proj2 (proj2 (proj2
           (X15_shape_of_data_results (pad_hash 16) (pad_hash 20)
              (pad_hash 32) 7 adjacent_blocks empty_cache 2 4
              eq_refl eq_refl)))).
Defined.

(** ** Errors and entries, call by call *)

Lemma not_wrong_arguments (blocks : list YR_MEMORY_BLOCK) (offset length : Z) :
  ~ wrong_arguments blocks offset length ->
  (offset <? 0) || (length <? 0) = false /\
  (blocks = [] \/ valid_arguments blocks offset length = true).
Proof.
  unfold wrong_arguments. intros H.
  assert (H1 : 0 <= offset) by lia. assert (H2 : 0 <= length) by lia.
  split.
  - apply orb_false_iff. split; apply Z.ltb_ge; assumption.
  - destruct blocks as [|first next]; [left; reflexivity|right].
    unfold valid_arguments. rewrite !andb_true_iff, !Z.leb_le.
    repeat split; try assumption.
    destruct (Z.le_gt_cases (base first) offset) as [Hle|Hgt];
      [exact Hle|].
    exfalso. apply H. right. right. exists first, next. split; [reflexivity|lia].
Qed.

(** X16: ERROR_WRONG_ARGUMENTS is returned for a negative offset, a
    negative length or an offset below the base of the first block, and
    for nothing else: no other call of a data-range function ends in an
    error code. *)
Theorem X16_error_only_for_wrong_arguments (MD5 : HASH MD5_DIGEST_LENGTH)
    (SHA1 : HASH SHA_DIGEST_LENGTH) (SHA256 : HASH SHA256_DIGEST_LENGTH)
    (fp : char_ptr) (context : YR_SCAN_CONTEXT) (cache : CACHE)
    (offset length : Z) (e : error_code) :
  (fst (data_md5 MD5 fp context cache offset length) = Error e ->
   wrong_arguments (mem_block context) offset length) /\
  (fst (data_sha1 SHA1 fp context cache offset length) = Error e ->
   wrong_arguments (mem_block context) offset length) /\
  (fst (data_sha256 SHA256 fp context cache offset length) = Error e ->
   wrong_arguments (mem_block context) offset length) /\
  (fst (data_checksum32 context cache offset length) = Error e ->
   wrong_arguments (mem_block context) offset length).
Proof.
  assert (Hdec : wrong_arguments (mem_block context) offset length \/
                 ~ wrong_arguments (mem_block context) offset length).
  { unfold wrong_arguments.
    destruct (Z.lt_ge_cases offset 0); [tauto|].
    destruct (Z.lt_ge_cases length 0); [tauto|].
    destruct (mem_block context) as [|first next].
    - right. intros [?|[?|(f & n & Hf & _)]]; [lia|lia|discriminate].
    - destruct (Z.lt_ge_cases offset (base first)).
      + left. right. right. now exists first, next.
      + right. intros [?|[?|(f & n & Hf & Hlt)]]; [lia|lia|].
        injection Hf as <- <-. lia. }
  destruct Hdec as [Hw|Hok]; [tauto|].
  destruct (not_wrong_arguments _ _ _ Hok) as [Hneg Hcase].
  split; [|split; [|split]]; intros Herr; exfalso.
  - destruct Hcase as [Hnil|Hv].
    + unfold data_md5 in Herr. rewrite Hneg, Hnil in Herr. discriminate.
    + destruct (hash_hit (md5 cache) offset length) eqn:Hhit.
      * rewrite data_md5_hit in Herr by assumption. discriminate.
      * rewrite data_md5_miss in Herr by assumption.
        destruct (resolve_range _ _ _); discriminate.
  - destruct Hcase as [Hnil|Hv].
    + unfold data_sha1 in Herr. rewrite Hneg, Hnil in Herr. discriminate.
    + destruct (hash_hit (sha1 cache) offset length) eqn:Hhit.
      * unfold data_sha1 in Herr.
        destruct (valid_arguments_inv _ _ _ Hv)
          as (first & next & Hblocks & H1 & H2 & H3).
        rewrite Hneg, Hblocks, H3 in Herr.
        unfold hash_hit in Hhit. rewrite Hhit in Herr.
        rewrite return_string_at_dead in Herr. discriminate.
      * rewrite data_sha1_miss in Herr by assumption.
        destruct (resolve_range _ _ _); discriminate.
  - destruct Hcase as [Hnil|Hv].
    + unfold data_sha256 in Herr. rewrite Hneg, Hnil in Herr. discriminate.
    + destruct (hash_hit (sha256 cache) offset length) eqn:Hhit.
      * unfold data_sha256 in Herr.
        destruct (valid_arguments_inv _ _ _ Hv)
          as (first & next & Hblocks & H1 & H2 & H3).
        rewrite Hneg, Hblocks, H3 in Herr.
        unfold hash_hit in Hhit. rewrite Hhit in Herr.
        rewrite return_string_at_dead in Herr. discriminate.
      * rewrite data_sha256_miss in Herr by assumption.
        destruct (resolve_range _ _ _); discriminate.
  - destruct Hcase as [Hnil|Hv].
    + unfold data_checksum32 in Herr. rewrite Hneg, Hnil in Herr.
      discriminate.
    + destruct (sum_hit (crc32 cache) offset length) eqn:Hhit.
      * rewrite data_checksum32_hit in Herr by assumption. discriminate.
      * rewrite data_checksum32_miss in Herr by assumption.
        destruct (resolve_range _ _ _); discriminate.
Qed.

Lemma X16_error_only_for_wrong_arguments_witness :
  fst (data_checksum32 distant_blocks empty_cache (-3) 4) =
    Error ERROR_WRONG_ARGUMENTS /\
  wrong_arguments (mem_block distant_blocks) (-3) 4.
Proof.
  split; [reflexivity|].
  exact (proj2 (proj2 (proj2
           (X16_error_only_for_wrong_arguments (pad_hash 16) (pad_hash 20)
              (pad_hash 32) 7 distant_blocks empty_cache (-3) 4
              ERROR_WRONG_ARGUMENTS))) eq_refl).
Defined.

(** X17: after a call of checksum32 on valid arguments the entry carries
    the offset and the length of that call, whatever the call returned,
    and it is set exactly when it was set before or the call returned a
    defined value. *)
Theorem X17_entry_after_checksum32 (context : YR_SCAN_CONTEXT) (cache : CACHE)
    (offset length : Z) :
  valid_arguments (mem_block context) offset length = true ->
  let r := data_checksum32 context cache offset length in
  sum_offset (crc32 (snd r)) = offset /\
  sum_length (crc32 (snd r)) = length /\
  sum_isSet (crc32 (snd r)) = sum_isSet (crc32 cache) || defined (fst r).
Proof.
  intros Hv. cbv zeta.
  destruct (sum_hit (crc32 cache) offset length) eqn:Hhit.
  - rewrite data_checksum32_hit by assumption. cbn [fst snd].
    apply sum_hit_exact in Hhit. destruct Hhit as (Hs & Ho & Hl).
    rewrite Hs. now repeat split.
  - rewrite data_checksum32_miss by assumption.
    destruct (resolve_range _ _ _) as [m|]; cbn [fst snd crc32 set_crc32].
    + unfold store_sum. cbn [sum_offset sum_length sum_isSet].
      repeat split.
      unfold defined, return_integer. rewrite checksum_defined.
      cbn [negb]. now rewrite orb_true_r.
    + unfold touch_sum. cbn [sum_offset sum_length sum_isSet].
      repeat split. unfold defined, return_integer, is_undefined.
      rewrite Z.eqb_refl. cbn. now rewrite orb_false_r.
Qed.

Lemma X17_entry_after_checksum32_witness :
  valid_arguments (mem_block distant_blocks) 2 4 = true /\
  fst (data_checksum32 distant_blocks empty_cache 2 4) =
    return_integer UNDEFINED /\
  sum_offset (crc32 (snd (data_checksum32 distant_blocks empty_cache 2 4))) =
    2.
Proof.
  split; [reflexivity|]. split; [reflexivity|].
  exact (proj1 (X17_entry_after_checksum32 distant_blocks empty_cache 2 4
                  eq_refl)).
Defined.

(** ** The declarations *)

Section Outcomes.

Variable MD5 : HASH MD5_DIGEST_LENGTH.
Variable SHA1 : HASH SHA_DIGEST_LENGTH.
Variable SHA256 : HASH SHA256_DIGEST_LENGTH.
Variable fp : char_ptr.
Variable context : YR_SCAN_CONTEXT.
Variable cache : CACHE.
Variables offset length : Z.

Lemma data_md5_outcome (v : YR_VALUE) :
  fst (data_md5 MD5 fp context cache offset length) = Done v ->
  value_format v = "s"%string.
Proof.
  unfold data_md5, MD5_CTX.
  destruct ((offset <? 0) || (length <? 0)); [discriminate|].
  destruct (mem_block context) as [|first next] eqn:Hb; [discriminate|].
  destruct (offset <? base first); [discriminate|].
  destruct (_ && _); [now rewrite return_string_at_dead|].
  rewrite <- Hb.
  change (foreach_memory_block (mem_block context) data_md5_body _)
    with (walk (@app byte) return_string_UNDEFINED (mem_block context)
            (start offset length [])).
  destruct (walk _ _ _ _) as [s|r] eqn:Hw.
  - destruct (l_past_first_block s); cbn [negb fst];
      rewrite ?return_string_at_live; intros H; injection H as <-;
      reflexivity.
  - apply walk_return in Hw. subst r. intros H. injection H as <-.
    reflexivity.
Qed.

Lemma data_sha1_outcome (v : YR_VALUE) :
  fst (data_sha1 SHA1 fp context cache offset length) = Done v ->
  value_format v = "s"%string.
Proof.
  unfold data_sha1, SHA_CTX.
  destruct ((offset <? 0) || (length <? 0)); [discriminate|].
  destruct (mem_block context) as [|first next] eqn:Hb; [discriminate|].
  destruct (offset <? base first); [discriminate|].
  destruct (_ && _); [now rewrite return_string_at_dead|].
  rewrite <- Hb.
  change (foreach_memory_block (mem_block context) data_sha1_body _)
    with (walk (@app byte) return_string_UNDEFINED (mem_block context)
            (start offset length [])).
  destruct (walk _ _ _ _) as [s|r] eqn:Hw.
  - destruct (l_past_first_block s); cbn [negb fst];
      rewrite ?return_string_at_live; intros H; injection H as <-;
      reflexivity.
  - apply walk_return in Hw. subst r. intros H. injection H as <-.
    reflexivity.
Qed.

Lemma data_sha256_outcome (v : YR_VALUE) :
  fst (data_sha256 SHA256 fp context cache offset length) = Done v ->
  value_format v = "s"%string.
Proof.
  unfold data_sha256, SHA256_CTX.
  destruct ((offset <? 0) || (length <? 0)); [discriminate|].
  destruct (mem_block context) as [|first next] eqn:Hb; [discriminate|].
  destruct (offset <? base first); [discriminate|].
  destruct (_ && _); [now rewrite return_string_at_dead|].
  rewrite <- Hb.
  change (foreach_memory_block (mem_block context) data_sha256_body _)
    with (walk (@app byte) return_string_UNDEFINED (mem_block context)
            (start offset length [])).
  destruct (walk _ _ _ _) as [s|r] eqn:Hw.
  - destruct (l_past_first_block s); cbn [negb fst];
      rewrite ?return_string_at_live; intros H; injection H as <-;
      reflexivity.
  - apply walk_return in Hw. subst r. intros H. injection H as <-.
    reflexivity.
Qed.

Lemma data_checksum32_outcome (v : YR_VALUE) :
  fst (data_checksum32 context cache offset length) = Done v ->
  value_format v = "i"%string.
Proof.
  unfold data_checksum32.
  destruct ((offset <? 0) || (length <? 0)); [discriminate|].
  destruct (mem_block context) as [|first next] eqn:Hb; [discriminate|].
  destruct (offset <? base first); [discriminate|].
  destruct (_ && _);
    [intros H; injection H as <-; reflexivity|].
  rewrite <- Hb.
  change (foreach_memory_block (mem_block context) data_checksum32_body _)
    with (walk checksum_update (return_integer UNDEFINED) (mem_block context)
            (start offset length 0)).
  destruct (walk _ _ _ _) as [s|r] eqn:Hw.
  - destruct (l_past_first_block s); cbn [negb fst];
      intros H; injection H as <-; reflexivity.
  - apply walk_return in Hw. subst r. intros H. injection H as <-.
    reflexivity.
Qed.

End Outcomes.

Lemma formats_ii (args : list argument) :
  formats args = "ii"%string ->
  exists offset length,
    args = [integer_argument offset; integer_argument length].
Proof.
  destruct args as [|[o|s1] [|[l|s2] [|a3 rest]]]; try discriminate.
  intros _. now exists o, l.
Qed.

Lemma formats_s (args : list argument) :
  formats args = "s"%string ->
  exists s, args = [sized_string_argument s].
Proof.
  destruct args as [|[o|s] [|a2 rest]]; try discriminate.
  intros _. now exists s.
Qed.

(** X18: the table of declarations and the functions agree: no two
    declarations share a name and an argument format, and every declared
    function, given arguments of its declared format, runs and returns,
    when it returns a value at all, a value of the declared return format:
    a string from the six hash functions, an integer from the two
    checksums. *)
Theorem X18_declarations_honoured (MD5 : HASH MD5_DIGEST_LENGTH)
    (SHA1 : HASH SHA_DIGEST_LENGTH) (SHA256 : HASH SHA256_DIGEST_LENGTH)
    (fp : char_ptr) (context : YR_SCAN_CONTEXT) (cache : CACHE)
    (d : declaration) (args : list argument) :
  NoDup (map (fun d => (d_name d, d_arguments d)) declarations) /\
  (In d declarations -> formats args = d_arguments d ->
   exists r,
     call MD5 SHA1 SHA256 fp context cache (d_code d) args = Some r /\
     forall v, fst r = Done v -> value_format v = d_returns d).
Proof.
  split.
  - cbn. repeat constructor;
      cbn; intros H; repeat (destruct H as [H|H]; [discriminate H|]);
      exact H.
  - intros Hd Hf. cbn in Hd.
    repeat (destruct Hd as [<-|Hd]); [..|destruct Hd];
      cbn [d_arguments d_returns d_code] in *;
      first [ apply formats_ii in Hf; destruct Hf as (o & l & ->)
            | apply formats_s in Hf; destruct Hf as (s & ->) ];
      cbn [call]; eexists; (split; [reflexivity|]); intros v Hv.
    + exact (data_md5_outcome MD5 fp context cache o l v Hv).
    + cbn in Hv. injection Hv as <-. reflexivity.
    + exact (data_sha1_outcome SHA1 fp context cache o l v Hv).
    + cbn in Hv. injection Hv as <-. reflexivity.
    + exact (data_sha256_outcome SHA256 fp context cache o l v Hv).
    + cbn in Hv. injection Hv as <-. reflexivity.
    + exact (data_checksum32_outcome context cache o l v Hv).
    + cbn in Hv. injection Hv as <-. reflexivity.
Qed.

Lemma X18_declarations_honoured_witness :
  exists r,
    call (pad_hash 16) (pad_hash 20) (pad_hash 32) 7 one_block empty_cache
      fn_data_checksum32 [integer_argument 0; integer_argument 4] = Some r /\
    forall v, fst r = Done v -> value_format v = "i"%string.
Proof.
  exact (proj2 (X18_declarations_honoured (pad_hash 16) (pad_hash 20)
                  (pad_hash 32) 7 one_block empty_cache
                  {| d_name := "checksum32"; d_arguments := "ii";
                     d_returns := "i"; d_code := fn_data_checksum32 |}
                  [integer_argument 0; integer_argument 4])
               ltac:(cbn; tauto) eq_refl).
Defined.
